(** * Mergington High School API: a shallow embedding of [src/app.py]

    The FastAPI application keeps three module-level dictionaries
    ([activities], [users], [active_sessions]) and exposes handlers that
    check a request and then mutate one of them.  The handlers are embedded
    below as computations in a small state-and-exception monad whose
    failures keep the store as it was when the exception was raised, so
    that "no partial effect" is a theorem about the handlers and not a
    consequence of the encoding.

    Strings are Rocq [string]s read as sequences of code points below 256
    (the range Starlette decodes header values into); the Python [str]
    methods used by the program are given on that range. *)

From Stdlib Require Import ZArith NArith String Ascii List Bool Lia.
From stdpp Require Import base option gmap strings list fin_maps.
Import ListNotations.

Local Open Scope string_scope.
Local Open Scope Z_scope.

(** ** Python [str] methods used by the program *)

Module PyStr.

Definition code (c : ascii) : Z := Z.of_N (N_of_ascii c).
Definition chr (n : Z) : ascii := ascii_of_N (Z.to_N n).

(** [str.lower] on one code point below 256: A-Z and the Latin-1
    capitals (all of 0xC0-0xDE but the multiplication sign 0xD7). *)
Definition is_upper (c : ascii) : bool :=
  let n := code c in
  ((65 <=? n) && (n <=? 90))
  || ((192 <=? n) && (n <=? 222) && negb (n =? 215)).

Definition lower_char (c : ascii) : ascii :=
  if is_upper c then chr (code c + 32) else c.

Fixpoint lower (s : string) : string :=
  match s with
  | EmptyString => EmptyString
  | String c s' => String (lower_char c) (lower s')
  end.

(** [str.isspace] on one code point below 256. *)
Definition isspace (c : ascii) : bool :=
  let n := code c in
  ((9 <=? n) && (n <=? 13)) || ((28 <=? n) && (n <=? 32))
  || (n =? 133) || (n =? 160).

Fixpoint lstrip (s : string) : string :=
  match s with
  | EmptyString => EmptyString
  | String c s' => if isspace c then lstrip s' else s
  end.

Fixpoint rstrip (s : string) : string :=
  match s with
  | EmptyString => EmptyString
  | String c s' =>
      match rstrip s' with
      | EmptyString => if isspace c then EmptyString else String c EmptyString
      | r => String c r
      end
  end.

(** [s.strip()] *)
Definition strip (s : string) : string := rstrip (lstrip s).

(** [s.startswith(p)] *)
Definition startswith (p s : string) : bool := String.prefix p s.

Fixpoint drop (n : nat) (s : string) : string :=
  match n, s with
  | O, _ => s
  | S _, EmptyString => EmptyString
  | S n', String _ s' => drop n' s'
  end.

(** [s.removeprefix(p)]: [s] unchanged when [p] is not a prefix. *)
Definition removeprefix (p s : string) : string :=
  if startswith p s then drop (String.length p) s else s.

(** [x in l] for a list of strings. *)
Definition contains (x : string) (l : list string) : bool :=
  bool_decide (x ∈ l).

(** [l.remove(x)]: drops the first occurrence (the program only calls it
    after checking [x in l], so the [ValueError] branch is not reached). *)
Fixpoint remove (x : string) (l : list string) : list string :=
  match l with
  | [] => []
  | y :: l' => if bool_decide (y = x) then l' else y :: remove x l'
  end.

(** [s.encode("utf-8")] for code points below 256. *)
Fixpoint encode_utf8 (s : string) : list Z :=
  match s with
  | EmptyString => []
  | String c s' =>
      let n := code c in
      if n <? 128 then n :: encode_utf8 s'
      else Z.lor 192 (Z.shiftr n 6) :: Z.lor 128 (Z.land n 63)
             :: encode_utf8 s'
  end.

End PyStr.

(** ** [hashlib.sha256(...).hexdigest()] *)

Module SHA256.

Definition mask32 : Z := 0xffffffff.
Definition add32 (x y : Z) : Z := Z.land (x + y) mask32.
Definition rotr (n x : Z) : Z :=
  Z.lor (Z.shiftr x n) (Z.land (Z.shiftl x (32 - n)) mask32).
Definition shr (n x : Z) : Z := Z.shiftr x n.
Definition xor3 (x y z : Z) : Z := Z.lxor x (Z.lxor y z).

Definition Ch (x y z : Z) : Z :=
  Z.lxor (Z.land x y) (Z.land (Z.lxor x mask32) z).
Definition Maj (x y z : Z) : Z :=
  xor3 (Z.land x y) (Z.land x z) (Z.land y z).
Definition Sigma0 (x : Z) : Z := xor3 (rotr 2 x) (rotr 13 x) (rotr 22 x).
Definition Sigma1 (x : Z) : Z := xor3 (rotr 6 x) (rotr 11 x) (rotr 25 x).
Definition sigma0 (x : Z) : Z := xor3 (rotr 7 x) (rotr 18 x) (shr 3 x).
Definition sigma1 (x : Z) : Z := xor3 (rotr 17 x) (rotr 19 x) (shr 10 x).

(** The largest [r] below [2^bits] with [r^k <= n], found bit by bit. *)
Fixpoint int_root (k : Z) (n : Z) (bits : nat) (r : Z) : Z :=
match bits with
| O => r
| S b =>
    let r' := Z.lor r (Z.shiftl 1 (Z.of_nat b)) in
    int_root k n b (if r' ^ k <=? n then r' else r)
end.

Definition is_prime (n : Z) : bool :=
forallb (λ d, negb (n mod d =? 0))
        (List.map Z.of_nat (List.seq 2 (Z.to_nat n - 2))).

(** The first [count] primes among the numbers from 2 up to [bound]. *)
Definition primes (count bound : nat) : list Z :=
List.firstn count (List.filter is_prime (List.map Z.of_nat (List.seq 2 bound))).

(** The first 32 bits of the fractional part of the [k]-th root of [p]. *)
Definition root_fraction (k p : Z) : Z :=
Z.land (int_root k (Z.shiftl p (32 * k)) 40 0) mask32.

(** The round constants: cube roots of the first 64 primes. *)
Definition K : list Z :=
Eval vm_compute in List.map (root_fraction 3) (primes 64 320).

(** The initial hash value: square roots of the first 8 primes. *)
Definition H0 : list Z :=
Eval vm_compute in List.map (root_fraction 2) (primes 8 20).

(** Big-endian bytes of [x], [n] of them. *)
Fixpoint be_bytes (n : nat) (x : Z) : list Z :=
  match n with
  | O => []
  | S n' => Z.land (Z.shiftr x (8 * Z.of_nat n')) 255 :: be_bytes n' x
  end.

(** Message padding: a 1 bit, zeros up to 56 mod 64, the bit length. *)
Definition pad (msg : list Z) : list Z :=
  let len := Z.of_nat (List.length msg) in
  let zeros := Z.to_nat ((55 - len) mod 64) in
  (msg ++ 128 :: List.repeat 0 zeros ++ be_bytes 8 (8 * len))%list.

(** The big-endian 32-bit words of a byte string. *)
Fixpoint words (fuel : nat) (bs : list Z) : list Z :=
  match fuel, bs with
  | S f, b0 :: b1 :: b2 :: b3 :: rest =>
      Z.lor (Z.shiftl b0 24) (Z.lor (Z.shiftl b1 16) (Z.lor (Z.shiftl b2 8) b3))
        :: words f rest
  | _, _ => []
  end.

(** Message schedule, most recent word first. *)
Fixpoint extend (n : nat) (w : list Z) : list Z :=
  match n with
  | O => w
  | S n' =>
      let new :=
        add32 (add32 (sigma1 (nth 1 w 0)) (nth 6 w 0))
              (add32 (sigma0 (nth 14 w 0)) (nth 15 w 0)) in
      extend n' (new :: w)
  end.

Definition schedule (block : list Z) : list Z :=
  List.rev (extend 48 (List.rev block)).

Definition round (st : list Z) (kw : Z * Z) : list Z :=
  match st with
  | [a; b; c; d; e; f; g; h] =>
      let t1 := add32 (add32 (add32 h (Sigma1 e)) (Ch e f g))
                      (add32 (fst kw) (snd kw)) in
      let t2 := add32 (Sigma0 a) (Maj a b c) in
      [add32 t1 t2; a; b; c; add32 d t1; e; f; g]
  | _ => st
  end.

Definition compress (h : list Z) (block : list Z) : list Z :=
  let st := List.fold_left round (List.combine K (schedule block)) h in
  List.map (fun p => add32 (fst p) (snd p)) (List.combine h st).

Fixpoint blocks (fuel : nat) (ws : list Z) : list (list Z) :=
  match fuel, ws with
  | O, _ | _, [] => []
  | S f, _ => List.firstn 16 ws :: blocks f (List.skipn 16 ws)
  end.

Definition digest (msg : list Z) : list Z :=
  let bs := pad msg in
  let ws := words (List.length bs) bs in
  List.fold_left compress (blocks (List.length ws) ws) H0.

Definition hex_digit (n : Z) : ascii :=
  if n <? 10 then PyStr.chr (48 + n) else PyStr.chr (87 + n).

Fixpoint hex_word (n : nat) (x : Z) : string :=
  match n with
  | O => EmptyString
  | S n' =>
      String (hex_digit (Z.land (Z.shiftr x (4 * Z.of_nat n')) 15))
             (hex_word n' x)
  end.

Definition hexdigest (msg : list Z) : string :=
  List.fold_right (fun w acc => hex_word 8 w +:+ acc) EmptyString (digest msg).

End SHA256.

(** ** Data model *)

(** One entry of the [activities] dictionary. *)
Record Activity := mkActivity {
  description : string;
  schedule : string;
  max_participants : Z;
  participants : list string
}.

(** One entry of the [users] dictionary. *)
Module UserRecord.
Record t := mk { password_hash : string; role : string }.
End UserRecord.

(** The dictionary [{"email": ..., "role": ...}] that [get_current_user]
    returns and the handlers receive as [current_user]. *)
Module CurrentUser.
Record t := mk { email : string; role : string }.
End CurrentUser.

(** The pydantic request bodies; [role] defaults to ["member"]. *)
Module RegisterRequest.
Record t := mk { email : string; password : string; role : string }.
Definition with_default (email password : string) (role : option string) : t :=
  mk email password (default "member" role).
End RegisterRequest.

Module LoginRequest.
Record t := mk { email : string; password : string }.
End LoginRequest.

(** The three module-level dictionaries. *)
Record Store := mkStore {
  activities : gmap string Activity;
  users : gmap string UserRecord.t;
  active_sessions : gmap string string
}.

Record HTTPException := mkHTTPException { status_code : Z; detail : string }.

(** The JSON bodies the handlers return. *)
Inductive Response :=
| Redirect (url : string)
| ActivityListing (listing : gmap string Activity)
| Message (message : string)
| Registered (message email role : string)
| LoggedIn (message token : string) (user : CurrentUser.t)
| Identity (user : CurrentUser.t).

#[global] Instance Activity_eq_dec : EqDecision Activity.
Proof. solve_decision. Defined.
#[global] Instance UserRecord_eq_dec : EqDecision UserRecord.t.
Proof. solve_decision. Defined.
#[global] Instance CurrentUser_eq_dec : EqDecision CurrentUser.t.
Proof. solve_decision. Defined.
#[global] Instance HTTPException_eq_dec : EqDecision HTTPException.
Proof. solve_decision. Defined.

(** ** The handler monad: a store threaded through, and exceptions

    A computation returns its outcome together with the store as it is
    when the computation stops; [raise] stops it where it stands, so
    whatever was written before the exception stays written, as in Python. *)

Inductive Outcome (A : Type) :=
| Return (a : A)
| Raise (e : HTTPException).
Arguments Return {A} a.
Arguments Raise {A} e.

Definition M (A : Type) : Type := Store → Outcome A * Store.

Definition ret {A} (a : A) : M A := λ s, (Return a, s).
Definition raise {A} (e : HTTPException) : M A := λ s, (Raise e, s).
Definition bind {A B} (m : M A) (k : A → M B) : M B :=
  λ s, match m s with
       | (Return a, s') => k a s'
       | (Raise e, s') => (Raise e, s')
       end.
Definition read {A} (f : Store → A) : M A := λ s, (Return (f s), s).
Definition write (f : Store → Store) : M unit := λ s, (Return tt, f s).

Declare Scope handler_scope.
Delimit Scope handler_scope with handler.
Notation "x <- m ;; k" := (bind m (λ x, k))
  (at level 20, m at level 99, k at level 200, only parsing) : handler_scope.
Notation "m ;; k" := (bind m (λ _, k))
  (at level 100, k at level 200, only parsing, right associativity) : handler_scope.
Local Open Scope handler_scope.

(** The mutations the program performs on its dictionaries. *)

(** [users[email] = record] *)
Definition users_setitem (email : string) (record : UserRecord.t) : M unit :=
  write (λ s, mkStore (activities s) (<[email := record]> (users s)) (active_sessions s)).

(** [active_sessions[token] = email] *)
Definition sessions_setitem (token email : string) : M unit :=
  write (λ s, mkStore (activities s) (users s) (<[token := email]> (active_sessions s))).

(** [active_sessions.pop(token, None)] *)
Definition sessions_pop (token : string) : M unit :=
  write (λ s, mkStore (activities s) (users s) (delete token (active_sessions s))).

Definition with_participants (f : list string → list string) (a : Activity) : Activity :=
  mkActivity (description a) (schedule a) (max_participants a) (f (participants a)).

(** [activities[name]["participants"].append(email)] *)
Definition participants_append (name email : string) : M unit :=
  write (λ s, mkStore (alter (with_participants (λ l, (l ++ [email])%list)) name (activities s))
                      (users s) (active_sessions s)).

(** [activities[name]["participants"].remove(email)] *)
Definition participants_remove (name email : string) : M unit :=
  write (λ s, mkStore (alter (with_participants (PyStr.remove email)) name (activities s))
                      (users s) (active_sessions s)).

(** ** The seeded dictionaries *)

Definition ROLES : gset string := {[ "member"; "admin"; "supervisor" ]}.

Definition hash_password (password : string) : string :=
  SHA256.hexdigest (PyStr.encode_utf8 password).

Definition seeded_activities : gmap string Activity :=
  list_to_map
    [ ("Chess Club",
       mkActivity "Learn strategies and compete in chess tournaments"
         "Fridays, 3:30 PM - 5:00 PM" 12
         ["michael@mergington.edu"; "daniel@mergington.edu"]);
      ("Programming Class",
       mkActivity "Learn programming fundamentals and build software projects"
         "Tuesdays and Thursdays, 3:30 PM - 4:30 PM" 20
         ["emma@mergington.edu"; "sophia@mergington.edu"]);
      ("Gym Class",
       mkActivity "Physical education and sports activities"
         "Mondays, Wednesdays, Fridays, 2:00 PM - 3:00 PM" 30
         ["john@mergington.edu"; "olivia@mergington.edu"]);
      ("Soccer Team",
       mkActivity "Join the school soccer team and compete in matches"
         "Tuesdays and Thursdays, 4:00 PM - 5:30 PM" 22
         ["liam@mergington.edu"; "noah@mergington.edu"]);
      ("Basketball Team",
       mkActivity "Practice and play basketball with the school team"
         "Wednesdays and Fridays, 3:30 PM - 5:00 PM" 15
         ["ava@mergington.edu"; "mia@mergington.edu"]);
      ("Art Club",
       mkActivity "Explore your creativity through painting and drawing"
         "Thursdays, 3:30 PM - 5:00 PM" 15
         ["amelia@mergington.edu"; "harper@mergington.edu"]);
      ("Drama Club",
       mkActivity "Act, direct, and produce plays and performances"
         "Mondays and Wednesdays, 4:00 PM - 5:30 PM" 20
         ["ella@mergington.edu"; "scarlett@mergington.edu"]);
      ("Math Club",
       mkActivity "Solve challenging problems and participate in math competitions"
         "Tuesdays, 3:30 PM - 4:30 PM" 10
         ["james@mergington.edu"; "benjamin@mergington.edu"]);
      ("Debate Team",
       mkActivity "Develop public speaking and argumentation skills"
         "Fridays, 4:00 PM - 5:30 PM" 12
         ["charlotte@mergington.edu"; "henry@mergington.edu"]) ].

Definition seeded_users : gmap string UserRecord.t :=
  list_to_map
    [ ("member@mergington.edu",
       UserRecord.mk (hash_password "member123") "member");
      ("admin@mergington.edu",
       UserRecord.mk (hash_password "admin123") "admin");
      ("supervisor@mergington.edu",
       UserRecord.mk (hash_password "supervisor123") "supervisor") ].

(** The store when the module has just been loaded. *)
Definition initial_store : Store := mkStore seeded_activities seeded_users ∅.

(** ** The handlers *)

Definition get_current_user (authorization : option string) : M CurrentUser.t :=
  match authorization with
  | None => raise (mkHTTPException 401 "Missing or invalid authorization header")
  | Some header =>
      if bool_decide (header = "") || negb (PyStr.startswith "Bearer " header)
      then raise (mkHTTPException 401 "Missing or invalid authorization header")
      else
        let token := PyStr.strip (PyStr.removeprefix "Bearer " header) in
        email <- read (λ s, active_sessions s !! token) ;;
        match email with
        | None | Some "" =>
            raise (mkHTTPException 401 "Invalid or expired session token")
        | Some email =>
            user_record <- read (λ s, users s !! email) ;;
            match user_record with
            | None => raise (mkHTTPException 401 "User not found")
            | Some user_record =>
                ret (CurrentUser.mk email (UserRecord.role user_record))
            end
        end
  end.

(** The dependency that [require_roles] builds from its allowed roles. *)
Definition require_roles (allowed_roles : list string)
    (authorization : option string) : M CurrentUser.t :=
  current_user <- get_current_user authorization ;;
  if negb (PyStr.contains (CurrentUser.role current_user) allowed_roles)
  then raise (mkHTTPException 403 "You do not have permission for this action")
  else ret current_user.

Definition root : M Response := ret (Redirect "/static/index.html").

Definition get_activities : M Response :=
  listing <- read activities ;; ret (ActivityListing listing).

Definition register_user (payload : RegisterRequest.t) : M Response :=
  let email := PyStr.lower (RegisterRequest.email payload) in
  let role := PyStr.lower (RegisterRequest.role payload) in
  if negb (bool_decide (role ∈ ROLES))
  then raise (mkHTTPException 400 "Invalid role")
  else if negb (bool_decide (role = "member"))
  then raise (mkHTTPException 403 "Self-registration only supports member role")
  else
    known <- read (λ s, bool_decide (is_Some (users s !! email))) ;;
    if (known : bool)
    then raise (mkHTTPException 400 "User already exists")
    else
      users_setitem email
        (UserRecord.mk (hash_password (RegisterRequest.password payload)) role) ;;
      ret (Registered "Registration successful" email role).

(** [token] is the value [secrets.token_urlsafe(32)] draws for this call. *)
Definition login_user (payload : LoginRequest.t) (token : string) : M Response :=
  let email := PyStr.lower (LoginRequest.email payload) in
  user_record <- read (λ s, users s !! email) ;;
  match user_record with
  | None => raise (mkHTTPException 401 "Invalid email or password")
  | Some user_record =>
      if negb (bool_decide (UserRecord.password_hash user_record
                            = hash_password (LoginRequest.password payload)))
      then raise (mkHTTPException 401 "Invalid email or password")
      else
        sessions_setitem token email ;;
        ret (LoggedIn "Login successful" token
               (CurrentUser.mk email (UserRecord.role user_record)))
  end.

(** The dependency [get_current_user] runs first; the [None] branch of the
    body (an attribute error on [None]) is therefore never entered. *)
Definition logout_user (authorization : option string) : M Response :=
  current_user <- get_current_user authorization ;;
  match authorization with
  | None => raise (mkHTTPException 500 "Internal Server Error")
  | Some header =>
      let token := PyStr.strip (PyStr.removeprefix "Bearer " header) in
      sessions_pop token ;;
      ret (Message ("Logged out " +:+ CurrentUser.email current_user))
  end.

Definition get_me (authorization : option string) : M Response :=
  current_user <- get_current_user authorization ;;
  ret (Identity current_user).

(** The body of [signup_for_activity], given the resolved [current_user]. *)
Definition signup_for_activity (activity_name email : string)
    (current_user : CurrentUser.t) : M Response :=
  found <- read (λ s, activities s !! activity_name) ;;
  match found with
  | None => raise (mkHTTPException 404 "Activity not found")
  | Some activity =>
      let target_email := PyStr.lower email in
      if bool_decide (CurrentUser.role current_user = "member")
         && negb (bool_decide (target_email = CurrentUser.email current_user))
      then raise (mkHTTPException 403 "Members can only sign themselves up")
      else if PyStr.contains target_email (participants activity)
      then raise (mkHTTPException 400 "Student is already signed up")
      else if Z.of_nat (length (participants activity)) >=? max_participants activity
      then raise (mkHTTPException 400 "Activity is full")
      else
        participants_append activity_name target_email ;;
        ret (Message ("Signed up " +:+ target_email +:+ " for " +:+ activity_name))
  end.

(** The body of [unregister_from_activity], given the resolved [current_user]. *)
Definition unregister_from_activity (activity_name email : string)
    (current_user : CurrentUser.t) : M Response :=
  found <- read (λ s, activities s !! activity_name) ;;
  match found with
  | None => raise (mkHTTPException 404 "Activity not found")
  | Some activity =>
      let target_email := PyStr.lower email in
      if bool_decide (CurrentUser.role current_user = "member")
         && negb (bool_decide (target_email = CurrentUser.email current_user))
      then raise (mkHTTPException 403 "Members can only unregister themselves")
      else if negb (PyStr.contains target_email (participants activity))
      then raise (mkHTTPException 400 "Student is not signed up for this activity")
      else
        participants_remove activity_name target_email ;;
        ret (Message ("Unregistered " +:+ target_email +:+ " from " +:+ activity_name))
  end.

(** ** Requests: a handler behind its dependencies *)

Inductive Request :=
| GetRoot
| GetActivities
| PostRegister (payload : RegisterRequest.t)
| PostLogin (payload : LoginRequest.t) (token : string)
| PostLogout (authorization : option string)
| GetMe (authorization : option string)
| PostSignup (authorization : option string) (activity_name email : string)
| DeleteUnregister (authorization : option string) (activity_name email : string).

Definition all_roles : list string := ["member"; "admin"; "supervisor"].

Definition serve (r : Request) : M Response :=
  match r with
  | GetRoot => root
  | GetActivities => get_activities
  | PostRegister payload => register_user payload
  | PostLogin payload token => login_user payload token
  | PostLogout authorization => logout_user authorization
  | GetMe authorization => get_me authorization
  | PostSignup authorization activity_name email =>
      current_user <- require_roles all_roles authorization ;;
      signup_for_activity activity_name email current_user
  | DeleteUnregister authorization activity_name email =>
      current_user <- require_roles all_roles authorization ;;
      unregister_from_activity activity_name email current_user
  end.

(** The store after serving the requests in order, whatever each returned. *)
Definition serve_all (rs : list Request) (s : Store) : Store :=
  fold_left (λ s r, snd (serve r s)) rs s.

(** A store the running program can be in. *)
Definition reachable (s : Store) : Prop :=
  ∃ rs, s = serve_all rs initial_store.

(** ** The failures, by the names the specification gives them *)

Definition Unauthenticated_header : HTTPException :=
  mkHTTPException 401 "Missing or invalid authorization header".
Definition Unauthenticated_token : HTTPException :=
  mkHTTPException 401 "Invalid or expired session token".
Definition Unauthenticated_user : HTTPException :=
  mkHTTPException 401 "User not found".
Definition InvalidRole : HTTPException :=
  mkHTTPException 400 "Invalid role".
Definition Forbidden : HTTPException :=
  mkHTTPException 403 "Self-registration only supports member role".
Definition AlreadyExists : HTTPException :=
  mkHTTPException 400 "User already exists".
Definition AuthFailed : HTTPException :=
  mkHTTPException 401 "Invalid email or password".
Definition NotFound : HTTPException :=
  mkHTTPException 404 "Activity not found".
Definition SignupPermissionDenied : HTTPException :=
  mkHTTPException 403 "Members can only sign themselves up".
Definition UnregisterPermissionDenied : HTTPException :=
  mkHTTPException 403 "Members can only unregister themselves".
Definition AlreadyRegistered : HTTPException :=
  mkHTTPException 400 "Student is already signed up".
Definition Full : HTTPException :=
  mkHTTPException 400 "Activity is full".
Definition NotRegistered : HTTPException :=
  mkHTTPException 400 "Student is not signed up for this activity".

(** A member acting for somebody else: the handler-level restriction. *)
Definition acts_for_other (current_user : CurrentUser.t) (email : string) : Prop :=
  CurrentUser.role current_user = "member"
  ∧ PyStr.lower email ≠ CurrentUser.email current_user.

(** Every roster within its capacity. *)
Definition within_capacity (s : Store) : Prop :=
  ∀ name a, activities s !! name = Some a →
    Z.of_nat (length (participants a)) ≤ max_participants a.

(** [m] changes nothing when it raises. *)
Definition atomic {A} (m : M A) : Prop :=
  ∀ s e, fst (m s) = Raise e → snd (m s) = s.

(** [m] never changes the store. *)
Definition read_only {A} (m : M A) : Prop :=
  ∀ s, snd (m s) = s.

(** Strings made of whitespace only. *)
Fixpoint all_space (s : string) : bool :=
  match s with
  | EmptyString => true
  | String c s' => PyStr.isspace c && all_space s'
  end.

(** [s] neither begins nor ends with a whitespace character. *)
Definition trimmed (s : string) : Prop :=
  (∀ c t, s = String c t → PyStr.isspace c = false)
  ∧ (∀ t c, s = t +:+ String c EmptyString → PyStr.isspace c = false).

(** What one request can do to the rosters: nothing, one append to a roster
    that has room, or one removal. *)
Definition roster_step (m m' : gmap string Activity) : Prop :=
  m' = m
  ∨ (∃ name a x,
       m !! name = Some a
       ∧ Z.of_nat (length (participants a)) < max_participants a
       ∧ m' = alter (with_participants (λ l, (l ++ [x])%list)) name m)
  ∨ (∃ name x, m' = alter (with_participants (PyStr.remove x)) name m).

(** Two names that differ, but only in letter case. *)
Definition differs_in_case_only (other name : string) : Prop :=
  other ≠ name ∧ PyStr.lower other = PyStr.lower name.

(** The administrator logs in and signs eight more students up for the
    Math Club, which then has its ten participants. *)
Definition fill_math_club : list Request :=
  PostLogin (LoginRequest.mk "admin@mergington.edu" "admin123") "admin-token"
  :: map (PostSignup (Some "Bearer admin-token") "Math Club")
       [ "s1@mergington.edu"; "s2@mergington.edu"; "s3@mergington.edu";
         "s4@mergington.edu"; "s5@mergington.edu"; "s6@mergington.edu";
         "s7@mergington.edu"; "s8@mergington.edu" ].

Definition full_store : Store := serve_all fill_math_club initial_store.

Definition admin_user : CurrentUser.t := CurrentUser.mk "admin@mergington.edu" "admin".
Definition member_user : CurrentUser.t := CurrentUser.mk "member@mergington.edu" "member".

(** The store once the seeded member has logged in. *)
Definition member_session : Store :=
  snd (serve (PostLogin (LoginRequest.mk "MEMBER@mergington.edu" "member123")
                        "member-token") initial_store).


(** ** What one request does to the store *)

(** The six ways a request can leave the store: untouched, one new user,
    one session recorded, one session dropped, one participant appended
    to a roster with room, one participant removed. *)
Inductive store_step (s : Store) : Store → Prop :=
| step_none : store_step s s
| step_register email password :
    users s !! PyStr.lower email = None →
    store_step s
      (mkStore (activities s)
         (<[PyStr.lower email := UserRecord.mk (hash_password password) "member"]>
            (users s))
         (active_sessions s))
| step_login email token user_record :
    users s !! PyStr.lower email = Some user_record →
    store_step s
      (mkStore (activities s) (users s)
         (<[token := PyStr.lower email]> (active_sessions s)))
| step_logout token :
    store_step s
      (mkStore (activities s) (users s) (delete token (active_sessions s)))
| step_signup activity_name activity email :
    activities s !! activity_name = Some activity →
    PyStr.lower email ∉ participants activity →
    Z.of_nat (length (participants activity)) < max_participants activity →
    store_step s
      (mkStore
         (alter (with_participants (λ l, (l ++ [PyStr.lower email])%list))
                activity_name (activities s))
         (users s) (active_sessions s))
| step_unregister activity_name activity email :
    activities s !! activity_name = Some activity →
    PyStr.lower email ∈ participants activity →
    store_step s
      (mkStore
         (alter (with_participants (PyStr.remove (PyStr.lower email)))
                activity_name (activities s))
         (users s) (active_sessions s)).

(** No email twice on a roster. *)
Definition rosters_distinct (s : Store) : Prop :=
  ∀ name a, activities s !! name = Some a → NoDup (participants a).

(** Every email the store holds is in lower case: the participants, the
    keys of [users], the owners of the sessions. *)
Definition emails_lowercase (s : Store) : Prop :=
  (∀ name a p, activities s !! name = Some a → p ∈ participants a →
     PyStr.lower p = p)
  ∧ (∀ email record, users s !! email = Some record → PyStr.lower email = email)
  ∧ (∀ token email, active_sessions s !! token = Some email →
       PyStr.lower email = email).

(** Every stored role is one of [ROLES]. *)
Definition roles_valid (s : Store) : Prop :=
  ∀ email record, users s !! email = Some record → UserRecord.role record ∈ ROLES.

(** Every session belongs to a registered user. *)
Definition sessions_owned (s : Store) : Prop :=
  ∀ token email, active_sessions s !! token = Some email →
    is_Some (users s !! email).

(** The activities are the seeded ones, with the seeded description,
    schedule and capacity. *)
Definition metadata_seeded (s : Store) : Prop :=
  dom (activities s) = dom seeded_activities
  ∧ ∀ name a, activities s !! name = Some a →
      ∃ a0, seeded_activities !! name = Some a0
            ∧ description a = description a0
            ∧ schedule a = schedule a0
            ∧ max_participants a = max_participants a0.


(** The characters of a lowercase hexadecimal numeral. *)
Definition is_hex_char (c : ascii) : bool :=
  let n := PyStr.code c in
  ((48 <=? n) && (n <=? 57)) || ((97 <=? n) && (n <=? 102)).

Fixpoint all_hex (s : string) : bool :=
  match s with
  | EmptyString => true
  | String c s' => is_hex_char c && all_hex s'
  end.

(** * Properties *)

(** ** The model runs: digests, string methods, a login *)

Example sha256_abc :
  SHA256.hexdigest (PyStr.encode_utf8 "abc")
  = "ba7816bf8f01cfea414140de5dae2223b00361a396177a9cb410ff61f20015ad".
Proof. vm_compute. reflexivity. Qed.

Example sha256_empty :
  SHA256.hexdigest (PyStr.encode_utf8 "")
  = "e3b0c44298fc1c149afbf4c8996fb92427ae41e4649b934ca495991b7852b855".
Proof. vm_compute. reflexivity. Qed.

Example sha256_two_blocks :
  SHA256.hexdigest (PyStr.encode_utf8
    "abcdbcdecdefdefgefghfghighijhijkijkljklmklmnlmnomnopnopq")
  = "248d6a61d20638b8e5c026930c3e6039a33ce45964ff2167f6ecedd419db06c1".
Proof. vm_compute. reflexivity. Qed.

Example lower_mixed : PyStr.lower "MEMBER@Mergington.EDU" = "member@mergington.edu".
Proof. reflexivity. Qed.

Example strip_both : PyStr.strip "  tok en	 " = "tok en".
Proof. reflexivity. Qed.

Example removeprefix_absent : PyStr.removeprefix "Bearer " "bearer x" = "bearer x".
Proof. reflexivity. Qed.

Example seeded_member_hash :
  hash_password "member123"
  = "5600376e863d2f57a053518f324ad3840b0bc2348b573af281a7b7cbe7a228c6".
Proof. vm_compute. reflexivity. Qed.

Example scenario_login_me :
  let (r, s) := login_user (LoginRequest.mk "MEMBER@mergington.edu" "member123") "tok" initial_store in
  r = Return (LoggedIn "Login successful" "tok" (CurrentUser.mk "member@mergington.edu" "member"))
  ∧ fst (get_me (Some "Bearer tok") s)
    = Return (Identity (CurrentUser.mk "member@mergington.edu" "member")).
Proof. vm_compute. split; reflexivity. Qed.

#[local] Opaque hash_password.

(** ** Running the monad *)

Section Running.
Context {A B : Type}.

Lemma run_bind_return (m : M A) (k : A → M B) s a s' :
  m s = (Return a, s') → bind m k s = k a s'.
Proof. unfold bind. intros ->. reflexivity. Qed.

Lemma run_bind_raise (m : M A) (k : A → M B) s e s' :
  m s = (Raise e, s') → bind m k s = (Raise e, s').
Proof. unfold bind. intros ->. reflexivity. Qed.

Lemma run_bind_read (f : Store → A) (k : A → M B) s :
  bind (read f) k s = k (f s) s.
Proof. reflexivity. Qed.

Lemma atomic_raise e : atomic (raise (A:=A) e).
Proof. intros s e' _. reflexivity. Qed.

Lemma atomic_read_only (m : M A) : read_only m → atomic m.
Proof. intros Hm s e _. apply Hm. Qed.

(** A computation that only reads, followed by an atomic one, is atomic. *)
Lemma atomic_bind_read_only (m : M A) (k : A → M B) :
  read_only m → (∀ a, atomic (k a)) → atomic (bind m k).
Proof.
  intros Hm Hk s e. unfold bind.
  specialize (Hm s). destruct (m s) as [[a|e'] s']; simpl in Hm; subst s'.
  - apply Hk.
  - reflexivity.
Qed.

(** A single write followed by a return cannot raise at all. *)
Lemma atomic_write_ret (f : Store → Store) (b : B) :
  atomic (bind (write f) (λ _, ret b)).
Proof. intros s e H. discriminate H. Qed.

Lemma read_only_read (f : Store → A) : read_only (read f).
Proof. intros s. reflexivity. Qed.

End Running.

Lemma get_current_user_read_only authorization :
  read_only (get_current_user authorization).
Proof.
  intros s. unfold get_current_user.
  destruct authorization as [header|]; [|reflexivity].
  destruct (_ || _); [reflexivity|].
  rewrite run_bind_read.
  destruct (active_sessions s !! _) as [[|c email]|]; try reflexivity.
  rewrite run_bind_read.
  destruct (users s !! _); reflexivity.
Qed.

Lemma require_roles_read_only allowed_roles authorization :
  read_only (require_roles allowed_roles authorization).
Proof.
  intros s. unfold require_roles, bind.
  pose proof (get_current_user_read_only authorization s) as H.
  destruct (get_current_user authorization s) as [[cu|e] s']; simpl in H; subst s'.
  - destruct (negb _); reflexivity.
  - reflexivity.
Qed.

Lemma register_user_atomic payload : atomic (register_user payload).
Proof.
  unfold register_user.
  destruct (negb _); [apply atomic_raise|].
  destruct (negb _); [apply atomic_raise|].
  apply atomic_bind_read_only; [apply read_only_read|].
  intros [|]; [apply atomic_raise|apply atomic_write_ret].
Qed.

Lemma login_user_atomic payload token : atomic (login_user payload token).
Proof.
  unfold login_user.
  apply atomic_bind_read_only; [apply read_only_read|].
  intros [user_record|]; [|apply atomic_raise].
  destruct (negb _); [apply atomic_raise|apply atomic_write_ret].
Qed.

Lemma logout_user_atomic authorization : atomic (logout_user authorization).
Proof.
  unfold logout_user.
  apply atomic_bind_read_only; [apply get_current_user_read_only|].
  intros cu. destruct authorization; [apply atomic_write_ret|apply atomic_raise].
Qed.

Lemma signup_for_activity_atomic activity_name email current_user :
  atomic (signup_for_activity activity_name email current_user).
Proof.
  unfold signup_for_activity.
  apply atomic_bind_read_only; [apply read_only_read|].
  intros [activity|]; [|apply atomic_raise].
  destruct (_ && _); [apply atomic_raise|].
  destruct (PyStr.contains _ _); [apply atomic_raise|].
  destruct (_ >=? _); [apply atomic_raise|apply atomic_write_ret].
Qed.

Lemma unregister_from_activity_atomic activity_name email current_user :
  atomic (unregister_from_activity activity_name email current_user).
Proof.
  unfold unregister_from_activity.
  apply atomic_bind_read_only; [apply read_only_read|].
  intros [activity|]; [|apply atomic_raise].
  destruct (_ && _); [apply atomic_raise|].
  destruct (negb _); [apply atomic_raise|apply atomic_write_ret].
Qed.

Lemma get_me_read_only authorization s :
  snd (get_me authorization s) = s.
Proof.
  unfold get_me, bind.
  pose proof (get_current_user_read_only authorization s) as H.
  destruct (get_current_user authorization s) as [[cu|e] s']; exact H.
Qed.

Lemma serve_atomic r : atomic (serve r).
Proof.
  destruct r; simpl.
  - apply atomic_read_only. intros s. reflexivity.
  - apply atomic_read_only. intros s. reflexivity.
  - apply register_user_atomic.
  - apply login_user_atomic.
  - apply logout_user_atomic.
  - apply atomic_read_only. intros s. apply get_me_read_only.
  - apply atomic_bind_read_only; [apply require_roles_read_only|].
    intros cu. apply signup_for_activity_atomic.
  - apply atomic_bind_read_only; [apply require_roles_read_only|].
    intros cu. apply unregister_from_activity_atomic.
Qed.

(** ** C8: a failing request leaves every dictionary as it was *)

(** C8.  Whatever the request (register, login, logout, signup, unregister,
    and the read-only ones) and whatever the store, if the handler raises
    then the store it leaves behind is the store it started from: [users],
    [active_sessions] and every participants list are untouched.  The same
    holds for the bodies of [signup_for_activity] and
    [unregister_from_activity] run with any already-resolved caller. *)
Theorem failure_leaves_store_unchanged :
  (∀ r s e, fst (serve r s) = Raise e → snd (serve r s) = s)
  ∧ (∀ activity_name email current_user s e,
       fst (signup_for_activity activity_name email current_user s) = Raise e →
       snd (signup_for_activity activity_name email current_user s) = s)
  ∧ (∀ activity_name email current_user s e,
       fst (unregister_from_activity activity_name email current_user s) = Raise e →
       snd (unregister_from_activity activity_name email current_user s) = s).
Proof.
  split; [|split].
  - intros r. apply serve_atomic.
  - intros n m cu. apply signup_for_activity_atomic.
  - intros n m cu. apply unregister_from_activity_atomic.
Qed.

(** ** Facts about the string methods *)

Lemma lower_char_idempotent c : PyStr.lower_char (PyStr.lower_char c) = PyStr.lower_char c.
Proof. destruct c as [[] [] [] [] [] [] [] []]; reflexivity. Qed.

Lemma lower_idempotent s : PyStr.lower (PyStr.lower s) = PyStr.lower s.
Proof.
  induction s as [|c s IH]; simpl; [reflexivity|].
  rewrite lower_char_idempotent, IH. reflexivity.
Qed.

Lemma app_cons a p r : String a p +:+ r = String a (p +:+ r).
Proof. reflexivity. Qed.

Lemma app_nil r : EmptyString +:+ r = r.
Proof. reflexivity. Qed.

Lemma startswith_iff p s :
  PyStr.startswith p s = true ↔ ∃ rest, s = p +:+ rest.
Proof.
  unfold PyStr.startswith. revert s.
  induction p as [|a p IH]; intros s.
  - split; [intros _; exists s; reflexivity|destruct s; reflexivity].
  - destruct s as [|b s]; simpl.
    + split; [discriminate|intros [rest H]; discriminate].
    + destruct (ascii_dec a b) as [->|Hne].
      * rewrite IH. split; intros [rest H]; exists rest; rewrite app_cons in *; congruence.
      * split; [discriminate|intros [rest H]; rewrite app_cons in H; congruence].
Qed.

Lemma drop_app p rest : PyStr.drop (String.length p) (p +:+ rest) = rest.
Proof. induction p as [|a p IH]; [destruct rest; reflexivity|exact IH]. Qed.

Lemma removeprefix_app p rest : PyStr.removeprefix p (p +:+ rest) = rest.
Proof.
  unfold PyStr.removeprefix.
  replace (PyStr.startswith p (p +:+ rest)) with true.
  - apply drop_app.
  - symmetry. apply startswith_iff. exists rest. reflexivity.
Qed.

Lemma lstrip_spec s :
  (∃ l, s = l +:+ PyStr.lstrip s ∧ all_space l = true)
  ∧ (∀ c t, PyStr.lstrip s = String c t → PyStr.isspace c = false).
Proof.
  induction s as [|a s [[l [Hl Hs]] IH]].
  - split; [exists EmptyString; split; reflexivity|discriminate].
  - cbn [PyStr.lstrip]. destruct (PyStr.isspace a) eqn:Ha.
    + split; [|exact IH]. exists (String a l). split.
      * rewrite app_cons, <- Hl. reflexivity.
      * cbn [all_space]. rewrite Ha, Hs. reflexivity.
    + split; [exists EmptyString; split; reflexivity|].
      intros c t [= <- _]. exact Ha.
Qed.

Lemma rstrip_spec s :
  (∃ r, s = PyStr.rstrip s +:+ r ∧ all_space r = true)
  ∧ (∀ t c, PyStr.rstrip s = t +:+ String c EmptyString → PyStr.isspace c = false).
Proof.
  induction s as [|a s [[r [Hr Hs]] IH]].
  - split; [exists EmptyString; split; reflexivity|].
    intros [|b t] c H; rewrite ?app_cons, ?app_nil in H; discriminate.
  - cbn [PyStr.rstrip]. destruct (PyStr.rstrip s) as [|x u] eqn:Hu.
    + rewrite app_nil in Hr. subst r. destruct (PyStr.isspace a) eqn:Ha.
      * split.
        -- exists (String a s). split; [reflexivity|].
           cbn [all_space]. rewrite Ha, Hs. reflexivity.
        -- intros [|b t] c H; rewrite ?app_cons, ?app_nil in H; discriminate.
      * split; [exists s; split; [reflexivity|exact Hs]|].
        intros [|b t] c H; rewrite ?app_cons, ?app_nil in H.
        -- injection H as <-. exact Ha.
        -- injection H as _ H. destruct t; rewrite ?app_cons, ?app_nil in H; discriminate.
    + split.
      * exists r. split; [rewrite app_cons, <- Hr; reflexivity|exact Hs].
      * intros [|b t] c H; rewrite ?app_cons, ?app_nil in H.
        -- discriminate.
        -- injection H as _ H. exact (IH t c H).
Qed.

Lemma rstrip_head a s c t :
  PyStr.rstrip (String a s) = String c t → c = a.
Proof.
  cbn [PyStr.rstrip]. destruct (PyStr.rstrip s); [destruct (PyStr.isspace a)|]; congruence.
Qed.

(** [strip] removes a run of whitespace at each end and nothing else, and
    what is left has no whitespace at either end. *)
Lemma strip_spec s :
  (∃ l r, s = l +:+ PyStr.strip s +:+ r ∧ all_space l = true ∧ all_space r = true)
  ∧ trimmed (PyStr.strip s).
Proof.
  unfold PyStr.strip.
  destruct (lstrip_spec s) as [[l [Hl Hls]] Hfirst].
  destruct (rstrip_spec (PyStr.lstrip s)) as [[r [Hr Hrs]] Hlast].
  split.
  - exists l, r. rewrite <- Hr. auto.
  - split; [|exact Hlast].
    intros c t Hc. destruct (PyStr.lstrip s) as [|a u] eqn:Hu; [discriminate|].
    apply rstrip_head in Hc. subst c. apply (Hfirst a u). reflexivity.
Qed.

(** ** C7: how the bearer token is taken from the header *)

(** C7.  A missing header, and any header that is not the string
    ["Bearer "] followed by something (the comparison is exact, so other
    casings do not count), fail with the 401 for a bad header in every
    store alike: the session store plays no part.  For a header
    ["Bearer " ++ rest] the key looked up in [active_sessions] is [rest]
    stripped, which is [rest] without a run of whitespace at each end; the
    outcome is decided by that lookup (and then by the [users] entry of
    the email found), and the store is left as it is. *)
Theorem bearer_token_extraction :
  (∀ s, get_current_user None s = (Raise Unauthenticated_header, s))
  ∧ (∀ header, (∀ rest, header ≠ "Bearer " +:+ rest) →
       ∀ s, get_current_user (Some header) s = (Raise Unauthenticated_header, s))
  ∧ (∀ rest s,
       get_current_user (Some ("Bearer " +:+ rest)) s =
       (match active_sessions s !! PyStr.strip rest with
        | None | Some EmptyString => Raise Unauthenticated_token
        | Some email =>
            match users s !! email with
            | None => Raise Unauthenticated_user
            | Some user_record =>
                Return (CurrentUser.mk email (UserRecord.role user_record))
            end
        end, s))
  ∧ (∀ rest,
       (∃ l r, rest = l +:+ PyStr.strip rest +:+ r
               ∧ all_space l = true ∧ all_space r = true)
       ∧ trimmed (PyStr.strip rest)).
Proof.
  split; [reflexivity|]. split; [|split].
  - intros header Hno s. unfold get_current_user.
    destruct (PyStr.startswith "Bearer " header) eqn:Hp.
    + apply startswith_iff in Hp as [rest ->]. destruct (Hno rest). reflexivity.
    + rewrite orb_true_r. reflexivity.
  - intros rest s. unfold get_current_user.
    replace (PyStr.startswith "Bearer " ("Bearer " +:+ rest)) with true
      by (symmetry; apply startswith_iff; eauto).
    rewrite removeprefix_app.
    replace (bool_decide ("Bearer " +:+ rest = "")) with false by reflexivity.
    cbn [orb negb]. rewrite run_bind_read.
    destruct (active_sessions s !! PyStr.strip rest) as [[|c email]|]; try reflexivity.
    rewrite run_bind_read. destruct (users s !! String c email); reflexivity.
  - intros rest. apply strip_spec.
Qed.

(** ** What each handler does, case by case *)

Lemma acts_for_other_true current_user email :
  acts_for_other current_user email →
  bool_decide (CurrentUser.role current_user = "member")
  && negb (bool_decide (PyStr.lower email = CurrentUser.email current_user)) = true.
Proof.
  intros [Hrole Hemail].
  rewrite (bool_decide_eq_true_2 _ Hrole), (bool_decide_eq_false_2 _ Hemail).
  reflexivity.
Qed.

Lemma acts_for_other_false current_user email :
  ¬ acts_for_other current_user email →
  bool_decide (CurrentUser.role current_user = "member")
  && negb (bool_decide (PyStr.lower email = CurrentUser.email current_user)) = false.
Proof.
  intros Hno. unfold acts_for_other in Hno.
  destruct (bool_decide _) eqn:Hrole; [|reflexivity].
  destruct (bool_decide (PyStr.lower _ = _)) eqn:Hemail; [reflexivity|].
  apply bool_decide_eq_true_1 in Hrole. apply bool_decide_eq_false_1 in Hemail.
  tauto.
Qed.

Lemma contains_true x l : x ∈ l → PyStr.contains x l = true.
Proof. apply bool_decide_eq_true_2. Qed.

Lemma contains_false x l : x ∉ l → PyStr.contains x l = false.
Proof. apply bool_decide_eq_false_2. Qed.

Section Signup.
Variables (s : Store) (activity_name email : string) (current_user : CurrentUser.t).

Lemma signup_not_found :
  activities s !! activity_name = None →
  signup_for_activity activity_name email current_user s = (Raise NotFound, s).
Proof.
  intros H. unfold signup_for_activity. rewrite run_bind_read, H. reflexivity.
Qed.

Variable activity : Activity.
Hypothesis Hfound : activities s !! activity_name = Some activity.

Lemma signup_denied :
  acts_for_other current_user email →
  signup_for_activity activity_name email current_user s
  = (Raise SignupPermissionDenied, s).
Proof.
  intros H. unfold signup_for_activity. rewrite run_bind_read, Hfound.
  rewrite (acts_for_other_true _ _ H). reflexivity.
Qed.

Hypothesis Hallowed : ¬ acts_for_other current_user email.

Lemma signup_duplicate :
  PyStr.lower email ∈ participants activity →
  signup_for_activity activity_name email current_user s
  = (Raise AlreadyRegistered, s).
Proof.
  intros H. unfold signup_for_activity. rewrite run_bind_read, Hfound.
  rewrite (acts_for_other_false _ _ Hallowed), (contains_true _ _ H).
  reflexivity.
Qed.

Hypothesis Hfresh : PyStr.lower email ∉ participants activity.

Lemma signup_full :
  max_participants activity ≤ Z.of_nat (length (participants activity)) →
  signup_for_activity activity_name email current_user s = (Raise Full, s).
Proof.
  intros H. unfold signup_for_activity. rewrite run_bind_read, Hfound.
  rewrite (acts_for_other_false _ _ Hallowed), (contains_false _ _ Hfresh).
  replace (_ >=? _) with true by (symmetry; apply Z.geb_le; exact H).
  reflexivity.
Qed.

Lemma signup_ok :
  Z.of_nat (length (participants activity)) < max_participants activity →
  signup_for_activity activity_name email current_user s
  = (Return (Message ("Signed up " +:+ PyStr.lower email +:+ " for " +:+ activity_name)),
     mkStore (alter (with_participants (λ l, (l ++ [PyStr.lower email])%list))
                    activity_name (activities s))
             (users s) (active_sessions s)).
Proof.
  intros H. unfold signup_for_activity. rewrite run_bind_read, Hfound.
  rewrite (acts_for_other_false _ _ Hallowed), (contains_false _ _ Hfresh).
  replace (_ >=? _) with false by (symmetry; rewrite Z.geb_leb; apply Z.leb_gt; exact H).
  reflexivity.
Qed.

End Signup.

(** A signup that returns went through every check. *)
Lemma signup_return_inv s activity_name email current_user response s' :
  signup_for_activity activity_name email current_user s = (Return response, s') →
  ∃ activity,
    activities s !! activity_name = Some activity
    ∧ ¬ acts_for_other current_user email
    ∧ (PyStr.lower email ∉ participants activity)
    ∧ Z.of_nat (length (participants activity)) < max_participants activity
    ∧ s' = mkStore (alter (with_participants (λ l, (l ++ [PyStr.lower email])%list))
                          activity_name (activities s))
                   (users s) (active_sessions s).
Proof.
  intros H.
  destruct (activities s !! activity_name) as [activity|] eqn:Hfound;
    [|rewrite signup_not_found in H by assumption; discriminate].
  destruct (decide (CurrentUser.role current_user = "member"
                    ∧ PyStr.lower email ≠ CurrentUser.email current_user)) as [Hd|Hd];
    [rewrite (signup_denied _ _ _ _ _ Hfound Hd) in H; discriminate|].
  destruct (decide (PyStr.lower email ∈ participants activity)) as [Hin|Hin];
    [rewrite (signup_duplicate _ _ _ _ _ Hfound Hd Hin) in H; discriminate|].
  destruct (Z_lt_le_dec (Z.of_nat (length (participants activity)))
                        (max_participants activity)) as [Hlt|Hle];
    [|rewrite (signup_full _ _ _ _ _ Hfound Hd Hin Hle) in H; discriminate].
  rewrite (signup_ok _ _ _ _ _ Hfound Hd Hin Hlt) in H.
  exists activity. injection H as _ <-. auto.
Qed.

Section Unregister.
Variables (s : Store) (activity_name email : string) (current_user : CurrentUser.t).

Lemma unregister_not_found :
  activities s !! activity_name = None →
  unregister_from_activity activity_name email current_user s = (Raise NotFound, s).
Proof.
  intros H. unfold unregister_from_activity. rewrite run_bind_read, H. reflexivity.
Qed.

Variable activity : Activity.
Hypothesis Hfound : activities s !! activity_name = Some activity.

Lemma unregister_denied :
  acts_for_other current_user email →
  unregister_from_activity activity_name email current_user s
  = (Raise UnregisterPermissionDenied, s).
Proof.
  intros H. unfold unregister_from_activity. rewrite run_bind_read, Hfound.
  rewrite (acts_for_other_true _ _ H). reflexivity.
Qed.

Hypothesis Hallowed : ¬ acts_for_other current_user email.

Lemma unregister_absent :
  PyStr.lower email ∉ participants activity →
  unregister_from_activity activity_name email current_user s
  = (Raise NotRegistered, s).
Proof.
  intros H. unfold unregister_from_activity. rewrite run_bind_read, Hfound.
  rewrite (acts_for_other_false _ _ Hallowed), (contains_false _ _ H).
  reflexivity.
Qed.

Lemma unregister_ok :
  PyStr.lower email ∈ participants activity →
  unregister_from_activity activity_name email current_user s
  = (Return (Message ("Unregistered " +:+ PyStr.lower email +:+ " from " +:+ activity_name)),
     mkStore (alter (with_participants (PyStr.remove (PyStr.lower email)))
                    activity_name (activities s))
             (users s) (active_sessions s)).
Proof.
  intros H. unfold unregister_from_activity. rewrite run_bind_read, Hfound.
  rewrite (acts_for_other_false _ _ Hallowed), (contains_true _ _ H).
  reflexivity.
Qed.

End Unregister.

(** ** C5: the order of the checks in signup *)

(** C5.  [signup_for_activity] answers with the first failure in the order
    NotFound, PermissionDenied, AlreadyRegistered, Full: each failure is
    returned as soon as its own condition and the negations of the earlier
    ones hold, whatever the later conditions are, and the store is the one
    the call started from. *)
Theorem signup_check_order (s : Store) (activity_name email : string)
    (current_user : CurrentUser.t) :
  let result := signup_for_activity activity_name email current_user s in
  (activities s !! activity_name = None → result = (Raise NotFound, s))
  ∧ (∀ activity, activities s !! activity_name = Some activity →
       (acts_for_other current_user email →
        result = (Raise SignupPermissionDenied, s))
       ∧ (¬ acts_for_other current_user email →
          PyStr.lower email ∈ participants activity →
          result = (Raise AlreadyRegistered, s))
       ∧ (¬ acts_for_other current_user email →
          PyStr.lower email ∉ participants activity →
          max_participants activity ≤ Z.of_nat (length (participants activity)) →
          result = (Raise Full, s))).
Proof.
  split; [apply signup_not_found|].
  intros activity Hfound. split; [|split].
  - apply signup_denied with activity. exact Hfound.
  - apply signup_duplicate. exact Hfound.
  - apply signup_full. exact Hfound.
Qed.

(** ** C4: signup followed by unregister *)

Lemma remove_app_fresh x l : x ∉ l → PyStr.remove x (l ++ [x])%list = l.
Proof.
  induction l as [|y l IH]; intros Hx; simpl.
  - rewrite bool_decide_eq_true_2 by reflexivity. reflexivity.
  - apply not_elem_of_cons in Hx as [Hne Hx].
    rewrite bool_decide_eq_false_2 by congruence.
    rewrite IH by exact Hx. reflexivity.
Qed.

Lemma store_eta s : mkStore (activities s) (users s) (active_sessions s) = s.
Proof. destruct s. reflexivity. Qed.

Lemma append_then_remove_roster x name (m : gmap string Activity) a :
  m !! name = Some a → x ∉ participants a →
  alter (with_participants (PyStr.remove x)) name
        (alter (with_participants (λ l, (l ++ [x])%list)) name m) = m.
Proof.
  intros Hm Hx. rewrite alter_alter_eq. apply alter_id.
  intros a' Ha'. rewrite Hm in Ha'. injection Ha' as <-.
  unfold compose, with_participants. cbn [participants description schedule max_participants].
  rewrite remove_app_fresh by exact Hx. destruct a. reflexivity.
Qed.

(** C4 (as amended).  When a signup succeeds, an unregister for the same
    activity and email, by any caller allowed to act for that email,
    succeeds too and leaves the store exactly as it was before the signup:
    the participants list has its prior contents in its prior order. *)
Theorem signup_unregister_round_trip (s s1 : Store) (activity_name email : string)
    (actor1 actor2 : CurrentUser.t) (response : Response) :
  signup_for_activity activity_name email actor1 s = (Return response, s1) →
  ¬ acts_for_other actor2 email →
  unregister_from_activity activity_name email actor2 s1
  = (Return (Message ("Unregistered " +:+ PyStr.lower email +:+ " from " +:+ activity_name)),
     s).
Proof.
  intros Hsignup Hactor2.
  apply signup_return_inv in Hsignup
    as (activity & Hfound & _ & Hfresh & _ & ->).
  erewrite unregister_ok; [| |exact Hactor2|].
  - cbn [activities users active_sessions].
    rewrite (append_then_remove_roster _ _ _ _ Hfound Hfresh), store_eta.
    reflexivity.
  - cbn [activities]. rewrite lookup_alter_eq, Hfound. reflexivity.
  - cbn [participants with_participants]. apply elem_of_app. right.
    apply list_elem_of_singleton. reflexivity.
Qed.

(** ** Stores the program can reach *)

Lemma serve_all_ind (P : Store → Prop) :
  (∀ s r, P s → P (snd (serve r s))) →
  ∀ rs s, P s → P (serve_all rs s).
Proof.
  intros Hstep rs. induction rs as [|r rs IH]; intros s Hs; [exact Hs|].
  apply IH, Hstep, Hs.
Qed.

Lemma reachable_ind (P : Store → Prop) :
  P initial_store →
  (∀ s r, P s → P (snd (serve r s))) →
  ∀ s, reachable s → P s.
Proof. intros H0 Hstep s [rs ->]. apply serve_all_ind; assumption. Qed.

Lemma unregister_return_inv s activity_name email current_user response s' :
  unregister_from_activity activity_name email current_user s = (Return response, s') →
  s' = mkStore (alter (with_participants (PyStr.remove (PyStr.lower email)))
                      activity_name (activities s))
               (users s) (active_sessions s).
Proof.
  intros H.
  destruct (activities s !! activity_name) as [activity|] eqn:Hfound;
    [|rewrite unregister_not_found in H by assumption; discriminate].
  destruct (decide (CurrentUser.role current_user = "member"
                    ∧ PyStr.lower email ≠ CurrentUser.email current_user)) as [Hd|Hd];
    [rewrite (unregister_denied _ _ _ _ _ Hfound Hd) in H; discriminate|].
  destruct (decide (PyStr.lower email ∈ participants activity)) as [Hin|Hin];
    [|rewrite (unregister_absent _ _ _ _ _ Hfound Hd Hin) in H; discriminate].
  rewrite (unregister_ok _ _ _ _ _ Hfound Hd Hin) in H.
  injection H as _ <-. reflexivity.
Qed.

Lemma signup_roster_step activity_name email current_user s :
  roster_step (activities s)
    (activities (snd (signup_for_activity activity_name email current_user s))).
Proof.
  destruct (signup_for_activity activity_name email current_user s)
    as [[response|e] s'] eqn:H.
  - apply signup_return_inv in H as (a & Hfound & _ & _ & Hroom & ->).
    right. left. exists activity_name, a, (PyStr.lower email). auto.
  - left. f_equal.
    pose proof (signup_for_activity_atomic activity_name email current_user s e) as Ha.
    rewrite H in Ha. apply Ha. reflexivity.
Qed.

Lemma unregister_roster_step activity_name email current_user s :
  roster_step (activities s)
    (activities (snd (unregister_from_activity activity_name email current_user s))).
Proof.
  destruct (unregister_from_activity activity_name email current_user s)
    as [[response|e] s'] eqn:H.
  - apply unregister_return_inv in H as ->.
    right. right. exists activity_name, (PyStr.lower email). reflexivity.
  - left. f_equal.
    pose proof (unregister_from_activity_atomic activity_name email current_user s e) as Ha.
    rewrite H in Ha. apply Ha. reflexivity.
Qed.

Lemma bind_read_only_run {A B} (m : M A) (k : A → M B) s :
  read_only m →
  (∃ e, bind m k s = (Raise e, s)) ∨ (∃ a, m s = (Return a, s) ∧ bind m k s = k a s).
Proof.
  intros Hm. specialize (Hm s). unfold bind.
  destruct (m s) as [[a|e] s']; simpl in Hm; subst s'; eauto.
Qed.

(** Split on the outcome of a dependency that only reads the store: it
    raised, or it returned and the handler body runs in the same store. *)
Ltac after_dependency Hread :=
  match goal with
  | |- context [bind ?m ?k ?s] =>
      let e := fresh "e" in
      let cu := fresh "cu" in
      let Hdep := fresh "Hdep" in
      destruct (bind_read_only_run m k s Hread) as [[e ->]|[cu [Hdep ->]]]
  end.

Lemma register_user_activities payload s :
  activities (snd (register_user payload s)) = activities s.
Proof.
  unfold register_user.
  destruct (negb _); [reflexivity|]. destruct (negb _); [reflexivity|].
  rewrite run_bind_read. destruct (bool_decide _); reflexivity.
Qed.

Lemma login_user_activities payload token s :
  activities (snd (login_user payload token s)) = activities s.
Proof.
  unfold login_user. rewrite run_bind_read.
  destruct (users s !! _); [|reflexivity]. destruct (negb _); reflexivity.
Qed.

Lemma logout_user_activities authorization s :
  activities (snd (logout_user authorization s)) = activities s.
Proof.
  unfold logout_user.
  after_dependency (get_current_user_read_only authorization); [reflexivity|].
  destruct authorization; reflexivity.
Qed.

Lemma serve_roster_step r s :
  roster_step (activities s) (activities (snd (serve r s))).
Proof.
  destruct r; cbn [serve].
  - left. reflexivity.
  - left. reflexivity.
  - left. apply register_user_activities.
  - left. apply login_user_activities.
  - left. apply logout_user_activities.
  - left. f_equal. apply get_me_read_only.
  - after_dependency (require_roles_read_only all_roles authorization).
    + left. reflexivity.
    + apply signup_roster_step.
  - after_dependency (require_roles_read_only all_roles authorization).
    + left. reflexivity.
    + apply unregister_roster_step.
Qed.

(** ** C1: capacity *)

Lemma remove_length x l : (length (PyStr.remove x l) ≤ length l)%nat.
Proof.
  induction l as [|y l IH]; simpl; [lia|].
  destruct (bool_decide (y = x)); simpl; lia.
Qed.

Lemma roster_step_capacity (m m' : gmap string Activity) :
  roster_step m m' →
  (∀ name a, m !! name = Some a →
     Z.of_nat (length (participants a)) ≤ max_participants a) →
  ∀ name a, m' !! name = Some a →
    Z.of_nat (length (participants a)) ≤ max_participants a.
Proof.
  intros [->|[(i & b & x & Hb & Hroom & ->)|(i & x & ->)]] Hm name a Ha.
  - exact (Hm name a Ha).
  - apply lookup_alter_Some in Ha as [(-> & b' & Hb' & ->)|[_ Ha]];
      [|exact (Hm name a Ha)].
    rewrite Hb in Hb'. injection Hb' as <-.
    cbn [with_participants participants max_participants].
    rewrite length_app. cbn [length]. lia.
  - apply lookup_alter_Some in Ha as [(-> & b' & Hb' & ->)|[_ Ha]];
      [|exact (Hm name a Ha)].
    cbn [with_participants participants max_participants].
    pose proof (remove_length x (participants b')).
    specialize (Hm name b' Hb'). lia.
Qed.

Lemma seeded_within_capacity : within_capacity initial_store.
Proof.
  intros name a H. cbn [activities initial_store] in H.
  unfold seeded_activities in H. apply elem_of_list_to_map_2 in H.
  repeat (apply elem_of_cons in H as [[= -> ->]|H]; [cbn; lia|]).
  apply elem_of_nil in H. destruct H.
Qed.

Lemma serve_within_capacity s r :
  within_capacity s → within_capacity (snd (serve r s)).
Proof. intros Hs. exact (roster_step_capacity _ _ (serve_roster_step r s) Hs). Qed.

Lemma reachable_within_capacity s : reachable s → within_capacity s.
Proof.
  apply reachable_ind; [exact seeded_within_capacity|].
  intros s' r. apply serve_within_capacity.
Qed.

(** C1 (as amended).  The rosters of a store the program can reach, by
    requests of any kind in any order, are all within capacity, and
    [signup_for_activity] run by any caller keeps them so.  A signup for
    an activity whose roster has reached its capacity always fails and
    leaves the store as it was; the failure is Full when the caller may
    act for the email and the email is not already on the roster (the
    earlier checks otherwise answer first). *)
Theorem capacity_invariant :
  (∀ rs, within_capacity (serve_all rs initial_store))
  ∧ (∀ s activity_name email current_user,
       within_capacity s →
       within_capacity (snd (signup_for_activity activity_name email current_user s)))
  ∧ (∀ s activity_name activity email current_user,
       activities s !! activity_name = Some activity →
       max_participants activity ≤ Z.of_nat (length (participants activity)) →
       (∃ e, signup_for_activity activity_name email current_user s = (Raise e, s))
       ∧ (¬ acts_for_other current_user email →
          PyStr.lower email ∉ participants activity →
          signup_for_activity activity_name email current_user s = (Raise Full, s))).
Proof.
  split; [|split].
  - intros rs. apply reachable_within_capacity. exists rs. reflexivity.
  - intros s activity_name email current_user Hs.
    exact (roster_step_capacity _ _ (signup_roster_step _ _ _ s) Hs).
  - intros s activity_name activity email current_user Hfound Hfull. split.
    + destruct (decide (CurrentUser.role current_user = "member"
                        ∧ PyStr.lower email ≠ CurrentUser.email current_user))
        as [Hd|Hd];
        [eexists; exact (signup_denied _ _ _ _ _ Hfound Hd)|].
      destruct (decide (PyStr.lower email ∈ participants activity)) as [Hin|Hin];
        [eexists; exact (signup_duplicate _ _ _ _ _ Hfound Hd Hin)|].
      eexists. exact (signup_full _ _ _ _ _ Hfound Hd Hin Hfull).
    + intros Hd Hin. exact (signup_full _ _ _ _ _ Hfound Hd Hin Hfull).
Qed.

(** C1, as first stated, fails: with the Math Club at its ten
    participants, the administrator's signup of a student who is already
    one of them is refused as AlreadyRegistered, not as Full. *)
Lemma signup_at_capacity_not_full :
  reachable full_store
  ∧ (∃ activity,
       activities full_store !! "Math Club" = Some activity
       ∧ Z.of_nat (length (participants activity)) = max_participants activity
       ∧ "james@mergington.edu" ∈ participants activity)
  ∧ signup_for_activity "Math Club" "james@mergington.edu" admin_user full_store
    = (Raise AlreadyRegistered, full_store)
  ∧ fst (serve (PostSignup (Some "Bearer admin-token") "Math Club" "james@mergington.edu")
           full_store) = Raise AlreadyRegistered
  ∧ AlreadyRegistered ≠ Full.
Proof.
  assert (∃ activity,
       activities full_store !! "Math Club" = Some activity
       ∧ Z.of_nat (length (participants activity)) = max_participants activity
       ∧ "james@mergington.edu" ∈ participants activity) as Hfull.
  { eexists. split; [vm_compute; reflexivity|]. split; [reflexivity|].
    cbn [participants]. left. }
  split; [exists fill_math_club; reflexivity|]. split; [exact Hfull|].
  destruct Hfull as (activity & Hfound & _ & Hin).
  split; [|split].
  - apply signup_duplicate with activity; [exact Hfound| |exact Hin].
    intros [Hrole _]. discriminate Hrole.
  - vm_compute. reflexivity.
  - discriminate.
Qed.

(** ** C9: activity names are matched exactly, emails modulo case *)

Lemma roster_step_dom (m m' : gmap string Activity) :
  roster_step m m' → dom m' = dom m.
Proof.
  intros [->|[(i & b & x & _ & _ & ->)|(i & x & ->)]];
    [reflexivity|apply dom_alter_L..].
Qed.

Lemma reachable_activity_names s :
  reachable s → dom (activities s) = dom seeded_activities.
Proof.
  revert s.
  apply (reachable_ind (λ s, dom (activities s) = dom seeded_activities));
    [reflexivity|].
  intros s r <-. apply roster_step_dom, serve_roster_step.
Qed.

Lemma seeded_activity_names name :
  is_Some (seeded_activities !! name) →
  name ∈ [ "Chess Club"; "Programming Class"; "Gym Class"; "Soccer Team";
           "Basketball Team"; "Art Club"; "Drama Club"; "Math Club";
           "Debate Team" ].
Proof.
  intros [a H]. unfold seeded_activities in H. apply elem_of_list_to_map_2 in H.
  repeat (apply elem_of_cons in H as [[= -> _]|H]; [set_solver|]).
  apply elem_of_nil in H. destruct H.
Qed.

(** No two seeded names are equal up to letter case. *)
Lemma seeded_names_apart name other :
  is_Some (seeded_activities !! name) →
  is_Some (seeded_activities !! other) →
  PyStr.lower other = PyStr.lower name → other = name.
Proof.
  intros Hname Hother.
  apply seeded_activity_names in Hname, Hother.
  repeat (apply elem_of_cons in Hname as [->|Hname]);
    try (apply elem_of_nil in Hname; destruct Hname);
    repeat (apply elem_of_cons in Hother as [->|Hother]);
    try (apply elem_of_nil in Hother; destruct Hother);
    intros Hlower; first [reflexivity|discriminate Hlower].
Qed.

Lemma signup_email_lower activity_name email current_user s :
  signup_for_activity activity_name (PyStr.lower email) current_user s
  = signup_for_activity activity_name email current_user s.
Proof. unfold signup_for_activity. rewrite lower_idempotent. reflexivity. Qed.

Lemma unregister_email_lower activity_name email current_user s :
  unregister_from_activity activity_name (PyStr.lower email) current_user s
  = unregister_from_activity activity_name email current_user s.
Proof. unfold unregister_from_activity. rewrite lower_idempotent. reflexivity. Qed.

(** C9.  In a store the program can reach, a name that differs from a
    stored activity's name, but only in letter case, is not found: the
    bodies of signup and unregister raise NotFound for every email and
    caller, and so do the two endpoints once the caller is authenticated.
    The email, by contrast, is lowercased before use, so two emails that
    agree up to case get the same outcome from both operations. *)
Theorem activity_lookup_case_sensitive (s : Store) (stored other : string) :
  reachable s →
  is_Some (activities s !! stored) →
  differs_in_case_only other stored →
  (∀ email current_user,
     signup_for_activity other email current_user s = (Raise NotFound, s)
     ∧ unregister_from_activity other email current_user s = (Raise NotFound, s))
  ∧ (∀ authorization email current_user,
       require_roles all_roles authorization s = (Return current_user, s) →
       serve (PostSignup authorization other email) s = (Raise NotFound, s)
       ∧ serve (DeleteUnregister authorization other email) s = (Raise NotFound, s))
  ∧ (∀ activity_name email1 email2 current_user,
       PyStr.lower email1 = PyStr.lower email2 →
       signup_for_activity activity_name email1 current_user s
       = signup_for_activity activity_name email2 current_user s
       ∧ unregister_from_activity activity_name email1 current_user s
         = unregister_from_activity activity_name email2 current_user s).
Proof.
  intros Hreach Hstored [Hne Hlower].
  assert (activities s !! other = None) as Hmissing.
  { destruct (activities s !! other) as [a|] eqn:Hother; [|reflexivity].
    destruct Hne. apply seeded_names_apart; [| |exact Hlower];
      apply elem_of_dom; rewrite <- (reachable_activity_names s Hreach);
      apply elem_of_dom; [exact Hstored|eauto]. }
  split; [|split].
  - intros email current_user.
    split; [apply signup_not_found|apply unregister_not_found]; exact Hmissing.
  - intros authorization email current_user Hauth. cbn [serve].
    rewrite !(run_bind_return _ _ _ _ _ Hauth).
    split; [apply signup_not_found|apply unregister_not_found]; exact Hmissing.
  - intros activity_name email1 email2 current_user Hemail.
    rewrite <- (signup_email_lower _ email1), <- (signup_email_lower _ email2).
    rewrite <- (unregister_email_lower _ email1), <- (unregister_email_lower _ email2).
    rewrite Hemail. split; reflexivity.
Qed.

(** ** Registration, case by case *)

Lemma ROLES_spec role :
  role ∈ ROLES ↔ role = "member" ∨ role = "admin" ∨ role = "supervisor".
Proof.
  unfold ROLES. rewrite !elem_of_union, !elem_of_singleton. tauto.
Qed.

Section Register.
Variables (s : Store) (payload : RegisterRequest.t).
Let email := PyStr.lower (RegisterRequest.email payload).
Let role := PyStr.lower (RegisterRequest.role payload).

Lemma register_invalid_role :
  role ∉ ROLES → register_user payload s = (Raise InvalidRole, s).
Proof.
  intros H. unfold register_user. fold role.
  rewrite (bool_decide_eq_false_2 _ H). reflexivity.
Qed.

Lemma register_forbidden :
  role ∈ ROLES → role ≠ "member" →
  register_user payload s = (Raise Forbidden, s).
Proof.
  intros Hin Hne. unfold register_user. fold role.
  rewrite (bool_decide_eq_true_2 _ Hin), (bool_decide_eq_false_2 _ Hne).
  reflexivity.
Qed.

Hypothesis Hmember : role = "member".

Lemma register_exists :
  is_Some (users s !! email) →
  register_user payload s = (Raise AlreadyExists, s).
Proof.
  intros H. unfold register_user. fold role email. rewrite Hmember.
  rewrite (bool_decide_eq_true_2 ("member" ∈ ROLES)) by (apply ROLES_spec; auto).
  rewrite (bool_decide_eq_true_2 ("member" = "member")) by reflexivity.
  cbn [negb]. rewrite run_bind_read, (bool_decide_eq_true_2 _ H). reflexivity.
Qed.

Lemma register_ok :
  users s !! email = None →
  register_user payload s
  = (Return (Registered "Registration successful" email "member"),
     mkStore (activities s)
       (<[email := UserRecord.mk (hash_password (RegisterRequest.password payload))
                                 "member"]> (users s))
       (active_sessions s)).
Proof.
  intros H. unfold register_user. fold role email. rewrite Hmember.
  rewrite (bool_decide_eq_true_2 ("member" ∈ ROLES)) by (apply ROLES_spec; auto).
  rewrite (bool_decide_eq_true_2 ("member" = "member")) by reflexivity.
  cbn [negb]. rewrite run_bind_read.
  rewrite (bool_decide_eq_false_2 (is_Some (users s !! email)))
    by (rewrite H; apply is_Some_None).
  reflexivity.
Qed.

End Register.

(** A registration that returns was for the member role and a new email. *)
Lemma register_return_inv s payload response s' :
  register_user payload s = (Return response, s') →
  PyStr.lower (RegisterRequest.role payload) = "member"
  ∧ users s !! PyStr.lower (RegisterRequest.email payload) = None
  ∧ s' = mkStore (activities s)
           (<[PyStr.lower (RegisterRequest.email payload)
              := UserRecord.mk (hash_password (RegisterRequest.password payload))
                               "member"]> (users s))
           (active_sessions s).
Proof.
  intros H.
  destruct (decide (PyStr.lower (RegisterRequest.role payload) ∈ ROLES)) as [Hin|Hin];
    [|rewrite register_invalid_role in H by exact Hin; discriminate].
  destruct (decide (PyStr.lower (RegisterRequest.role payload) = "member")) as [Hm|Hm];
    [|rewrite register_forbidden in H by assumption; discriminate].
  destruct (users s !! PyStr.lower (RegisterRequest.email payload)) as [u|] eqn:Hu;
    [rewrite register_exists in H by (rewrite ?Hu; eauto); discriminate|].
  rewrite register_ok in H by assumption.
  injection H as _ <-. auto.
Qed.

(** ** C3: asking for a privileged role *)

(** C3 (as amended).  A registration whose role, lowercased, is a role
    other than member is refused with status 403 (not 400), and the store,
    so the [users] dictionary in particular, is left as it was. *)
Theorem register_privileged_role_forbidden (s : Store) (payload : RegisterRequest.t) :
  PyStr.lower (RegisterRequest.role payload) ∈ ROLES →
  PyStr.lower (RegisterRequest.role payload) ≠ "member" →
  register_user payload s
  = (Raise (mkHTTPException 403 "Self-registration only supports member role"), s).
Proof. apply register_forbidden. Qed.

(** C3, as first stated, fails: registering with the role admin is
    answered with status 403, which is not 400. *)
Lemma register_admin_is_403 :
  "admin" ∈ ROLES ∧ "admin" ≠ "member"
  ∧ ∃ e, register_user (RegisterRequest.mk "new@mergington.edu" "secret" "admin")
           initial_store = (Raise e, initial_store)
         ∧ status_code e = 403 ∧ status_code e ≠ 400.
Proof.
  split; [apply ROLES_spec; auto|]. split; [discriminate|].
  exists Forbidden. split; [|split; [reflexivity|discriminate]].
  apply register_forbidden; [apply ROLES_spec; auto|discriminate].
Qed.

(** ** C10: the role is lowercased before it is validated *)

(** C10 (as amended).  The role is lowercased first.  If the result is
    member, both role checks pass: the registration then succeeds, storing
    the role member, when the lowercased email is new, and fails
    AlreadyExists when it is taken.  If the result is admin or supervisor
    the self-registration check refuses it.  InvalidRole is raised exactly
    when the lowercased role is none of the three. *)
Theorem register_role_lowercased (s : Store) (payload : RegisterRequest.t) :
  let email := PyStr.lower (RegisterRequest.email payload) in
  let role := PyStr.lower (RegisterRequest.role payload) in
  let record := UserRecord.mk (hash_password (RegisterRequest.password payload)) "member" in
  (role = "member" → users s !! email = None →
   fst (register_user payload s)
   = Return (Registered "Registration successful" email "member")
   ∧ users (snd (register_user payload s)) !! email = Some record)
  ∧ (role = "member" → is_Some (users s !! email) →
     register_user payload s = (Raise AlreadyExists, s))
  ∧ (role = "admin" ∨ role = "supervisor" →
     register_user payload s = (Raise Forbidden, s))
  ∧ (fst (register_user payload s) = Raise InvalidRole
     ↔ ¬ (role = "member" ∨ role = "admin" ∨ role = "supervisor")).
Proof.
  intros email role record. split; [|split; [|split]].
  - intros Hrole Hnew. rewrite (register_ok _ _ Hrole Hnew).
    split; [reflexivity|]. cbn [snd users]. apply lookup_insert_eq.
  - intros Hrole Htaken. exact (register_exists _ _ Hrole Htaken).
  - intros Hrole. apply register_forbidden.
    + apply ROLES_spec. tauto.
    + fold role. destruct Hrole as [-> | ->]; discriminate.
  - rewrite <- ROLES_spec. split.
    + intros Hfst Hin.
      destruct (decide (role = "member")) as [Hm|Hm].
      * destruct (users s !! email) as [u|] eqn:Hu.
        -- rewrite (register_exists _ _ Hm) in Hfst by (fold email; rewrite Hu; eauto).
           discriminate Hfst.
        -- rewrite (register_ok _ _ Hm Hu) in Hfst. discriminate Hfst.
      * rewrite (register_forbidden _ _ Hin Hm) in Hfst. discriminate Hfst.
    + intros Hout. rewrite (register_invalid_role _ _ Hout). reflexivity.
Qed.

(** C10, as first stated, fails: the role MEMBER lowercases to member, yet
    the request is refused because the email is the seeded member's. *)
Lemma register_member_role_taken_email :
  PyStr.lower "MEMBER" = "member"
  ∧ register_user (RegisterRequest.mk "member@mergington.edu" "secret" "MEMBER")
      initial_store
    = (Raise AlreadyExists, initial_store).
Proof.
  split; [reflexivity|].
  apply register_exists; [reflexivity|].
  eexists. vm_compute. reflexivity.
Qed.

(** ** C2: registering the same email again *)

(** C2 (as amended).  After a successful registration, a second one whose
    email lowercases to the same string always fails and leaves the store
    as it is, whatever its password.  The failure is AlreadyExists when
    the second role lowercases to member; a role that lowercases to admin
    or supervisor is refused by the self-registration check, and any other
    role as invalid, before the email is looked at. *)
Theorem second_register_fails (s s1 : Store) (first second : RegisterRequest.t)
    (response : Response) :
  register_user first s = (Return response, s1) →
  PyStr.lower (RegisterRequest.email second) = PyStr.lower (RegisterRequest.email first) →
  let role := PyStr.lower (RegisterRequest.role second) in
  (∃ e, register_user second s1 = (Raise e, s1))
  ∧ (role = "member" → register_user second s1 = (Raise AlreadyExists, s1))
  ∧ (role = "admin" ∨ role = "supervisor" →
     register_user second s1 = (Raise Forbidden, s1))
  ∧ (role ∉ ROLES → register_user second s1 = (Raise InvalidRole, s1)).
Proof.
  intros Hfirst Hemail role.
  apply register_return_inv in Hfirst as (_ & _ & ->).
  assert (role = "member" →
          register_user second
            (mkStore (activities s)
               (<[PyStr.lower (RegisterRequest.email first)
                  := UserRecord.mk (hash_password (RegisterRequest.password first))
                                   "member"]> (users s))
               (active_sessions s))
          = (Raise AlreadyExists,
             mkStore (activities s)
               (<[PyStr.lower (RegisterRequest.email first)
                  := UserRecord.mk (hash_password (RegisterRequest.password first))
                                   "member"]> (users s))
               (active_sessions s))) as Hsame.
  { intros Hrole. apply register_exists; [exact Hrole|].
    cbn [users]. rewrite Hemail, lookup_insert_eq. eauto. }
  assert (role = "admin" ∨ role = "supervisor" → role ∈ ROLES ∧ role ≠ "member") as Hpriv.
  { intros Hrole. split; [apply ROLES_spec; tauto|].
    destruct Hrole as [-> | ->]; discriminate. }
  split; [|split; [exact Hsame|split]].
  - destruct (decide (role ∈ ROLES)) as [Hin|Hout];
      [|eexists; apply register_invalid_role; exact Hout].
    destruct (decide (role = "member")) as [Hm|Hm]; [eauto|].
    eexists. apply register_forbidden; assumption.
  - intros Hrole. apply register_forbidden; apply Hpriv, Hrole.
  - intros Hout. apply register_invalid_role. exact Hout.
Qed.

(** C2, as first stated, fails: the second registration of an email, when
    made with the role admin, is refused by the self-registration check
    and not as AlreadyExists. *)
Lemma second_register_as_admin :
  ∃ s1,
    register_user (RegisterRequest.mk "new@mergington.edu" "secret" "member")
      initial_store
    = (Return (Registered "Registration successful" "new@mergington.edu" "member"), s1)
    ∧ register_user (RegisterRequest.mk "new@mergington.edu" "secret" "admin") s1
      = (Raise Forbidden, s1)
    ∧ Forbidden ≠ AlreadyExists.
Proof.
  eexists. split; [|split].
  - apply register_ok; [reflexivity|]. vm_compute. reflexivity.
  - apply register_forbidden; [apply ROLES_spec; auto|discriminate].
  - discriminate.
Qed.

(** ** C6: logging in after registering *)

(** C6.  Once a registration has succeeded, a login with the same password
    and an email that agrees with the registered one up to case (the same
    email in particular) succeeds, whatever token is drawn: it returns the
    registered user, with the lowercased email and the role member, and
    records the session. *)
Theorem login_after_register (s s1 : Store) (payload : RegisterRequest.t)
    (response : Response) (email token : string) :
  register_user payload s = (Return response, s1) →
  PyStr.lower email = PyStr.lower (RegisterRequest.email payload) →
  login_user (LoginRequest.mk email (RegisterRequest.password payload)) token s1
  = (Return (LoggedIn "Login successful" token
               (CurrentUser.mk (PyStr.lower (RegisterRequest.email payload)) "member")),
     mkStore (activities s1) (users s1)
       (<[token := PyStr.lower (RegisterRequest.email payload)]> (active_sessions s1))).
Proof.
  intros Hregister Hemail.
  apply register_return_inv in Hregister as (_ & _ & ->).
  unfold login_user. cbn [LoginRequest.email LoginRequest.password].
  rewrite run_bind_read. cbn [users]. rewrite Hemail, lookup_insert_eq.
  cbn [UserRecord.password_hash UserRecord.role].
  rewrite bool_decide_eq_true_2 by reflexivity. reflexivity.
Qed.

(** ** The theorems at concrete requests *)

Lemma initial_store_reachable : reachable initial_store.
Proof. exists []. reflexivity. Qed.

Lemma admin_acts_for_anyone email : ¬ acts_for_other admin_user email.
Proof. intros [Hrole _]. discriminate Hrole. Qed.

(** C1 at the filled Math Club: a ninth newcomer is refused as Full. *)
Lemma capacity_invariant_witness :
  within_capacity full_store
  ∧ signup_for_activity "Math Club" "s9@mergington.edu" admin_user full_store
    = (Raise Full, full_store).
Proof.
  destruct capacity_invariant as (Hreach & _ & Hfull).
  split; [exact (Hreach fill_math_club)|].
  assert (∃ activity, activities full_store !! "Math Club" = Some activity
                      ∧ max_participants activity
                        ≤ Z.of_nat (length (participants activity))
                      ∧ PyStr.lower "s9@mergington.edu" ∉ participants activity)
    as (activity & Hfound & Hcap & Hfresh).
  { eexists. split; [vm_compute; reflexivity|].
    split; [cbn; lia|].
    apply (bool_decide_unpack _). vm_compute. exact I. }
  exact (proj2 (Hfull full_store "Math Club" activity "s9@mergington.edu" admin_user
                  Hfound Hcap)
               (admin_acts_for_anyone _) Hfresh).
Defined.

(** C2 at a new email, registered twice as a member. *)
Lemma second_register_fails_witness :
  ∃ s1,
    register_user (RegisterRequest.mk "new@mergington.edu" "secret" "member")
      initial_store
    = (Return (Registered "Registration successful" "new@mergington.edu" "member"), s1)
    ∧ register_user (RegisterRequest.mk "NEW@mergington.edu" "other" "Member") s1
      = (Raise AlreadyExists, s1).
Proof.
  eexists. split.
  - apply register_ok; [reflexivity|]. vm_compute. reflexivity.
  - refine (proj1 (proj2 (second_register_fails initial_store _
                            (RegisterRequest.mk "new@mergington.edu" "secret" "member")
                            (RegisterRequest.mk "NEW@mergington.edu" "other" "Member")
                            _ _ _)) _); [|reflexivity..].
    apply register_ok; [reflexivity|]. vm_compute. reflexivity.
Defined.

(** C3 at the role Supervisor. *)
Lemma register_privileged_role_forbidden_witness :
  register_user (RegisterRequest.mk "new@mergington.edu" "secret" "Supervisor")
    initial_store
  = (Raise (mkHTTPException 403 "Self-registration only supports member role"),
     initial_store).
Proof.
  apply register_privileged_role_forbidden.
  - apply ROLES_spec. right. right. reflexivity.
  - discriminate.
Defined.

(** C4 at the Chess Club: the member signs up, the administrator
    unregisters them. *)
Lemma signup_unregister_round_trip_witness :
  ∃ s1,
    signup_for_activity "Chess Club" "Member@mergington.edu" member_user initial_store
    = (Return (Message "Signed up member@mergington.edu for Chess Club"), s1)
    ∧ unregister_from_activity "Chess Club" "Member@mergington.edu" admin_user s1
      = (Return (Message "Unregistered member@mergington.edu from Chess Club"),
         initial_store).
Proof.
  assert (∃ s1,
    signup_for_activity "Chess Club" "Member@mergington.edu" member_user initial_store
    = (Return (Message "Signed up member@mergington.edu for Chess Club"), s1))
    as [s1 Hsignup].
  { eexists. vm_compute. reflexivity. }
  exists s1. split; [exact Hsignup|].
  exact (signup_unregister_round_trip initial_store s1 "Chess Club"
           "Member@mergington.edu" member_user admin_user _ Hsignup
           (admin_acts_for_anyone _)).
Defined.

(** C4, as first stated, fails: when the email is already on the roster
    the signup is refused, the unregister that follows removes the earlier
    entry, and the roster is not what it was. *)
Lemma duplicate_signup_then_unregister :
  ∃ s2 before after,
    activities initial_store !! "Chess Club" = Some before
    ∧ signup_for_activity "Chess Club" "michael@mergington.edu" admin_user initial_store
      = (Raise AlreadyRegistered, initial_store)
    ∧ unregister_from_activity "Chess Club" "michael@mergington.edu" admin_user
        initial_store
      = (Return (Message "Unregistered michael@mergington.edu from Chess Club"), s2)
    ∧ activities s2 !! "Chess Club" = Some after
    ∧ participants before = ["michael@mergington.edu"; "daniel@mergington.edu"]
    ∧ participants after = ["daniel@mergington.edu"]
    ∧ participants after ≠ participants before.
Proof.
  eexists _, _, _.
  split; [vm_compute; reflexivity|].
  split; [vm_compute; reflexivity|].
  split; [vm_compute; reflexivity|].
  split; [vm_compute; reflexivity|].
  split; [reflexivity|]. split; [reflexivity|]. discriminate.
Qed.

(** C5 where several conditions hold at once: an unknown activity asked for
    by a member on behalf of another; the full Math Club asked for by a
    member on behalf of one of its participants; the same asked for by the
    administrator. *)
Lemma signup_check_order_witness :
  signup_for_activity "Knitting" "james@mergington.edu" member_user full_store
  = (Raise NotFound, full_store)
  ∧ signup_for_activity "Math Club" "james@mergington.edu" member_user full_store
    = (Raise SignupPermissionDenied, full_store)
  ∧ signup_for_activity "Math Club" "james@mergington.edu" admin_user full_store
    = (Raise AlreadyRegistered, full_store).
Proof.
  assert (∃ activity, activities full_store !! "Math Club" = Some activity
                      ∧ "james@mergington.edu" ∈ participants activity)
    as (activity & Hfound & Hin).
  { eexists. split; [vm_compute; reflexivity|]. cbn [participants]. left. }
  split; [|split].
  - apply (signup_check_order full_store "Knitting" "james@mergington.edu" member_user).
    vm_compute. reflexivity.
  - apply (signup_check_order full_store "Math Club" "james@mergington.edu" member_user)
      with activity; [exact Hfound|].
    split; [reflexivity|discriminate].
  - apply (signup_check_order full_store "Math Club" "james@mergington.edu" admin_user)
      with activity; [exact Hfound|apply admin_acts_for_anyone|exact Hin].
Defined.

(** C6 at a new email, logged in with another casing of it. *)
Lemma login_after_register_witness :
  ∃ s1 s2,
    register_user (RegisterRequest.mk "New@Mergington.edu" "secret" "member")
      initial_store
    = (Return (Registered "Registration successful" "new@mergington.edu" "member"), s1)
    ∧ login_user (LoginRequest.mk "new@mergington.edu" "secret") "token-1" s1
      = (Return (LoggedIn "Login successful" "token-1"
                   (CurrentUser.mk "new@mergington.edu" "member")), s2).
Proof.
  assert (∃ s1,
    register_user (RegisterRequest.mk "New@Mergington.edu" "secret" "member")
      initial_store
    = (Return (Registered "Registration successful" "new@mergington.edu" "member"), s1))
    as [s1 Hregister].
  { eexists. apply register_ok; [reflexivity|]. vm_compute. reflexivity. }
  exists s1. eexists. split; [exact Hregister|].
  exact (login_after_register initial_store s1
           (RegisterRequest.mk "New@Mergington.edu" "secret" "member") _
           "new@mergington.edu" "token-1" Hregister eq_refl).
Defined.

(** C7 with the member logged in: the scheme in lower case is refused
    although the token is a live one; with the right prefix the padded
    token is found. *)
Lemma bearer_token_extraction_witness :
  active_sessions member_session !! "member-token" = Some "member@mergington.edu"
  ∧ get_current_user (Some "bearer member-token") member_session
    = (Raise Unauthenticated_header, member_session)
  ∧ get_current_user (Some "Bearer   member-token  ") member_session
    = (Return (CurrentUser.mk "member@mergington.edu" "member"), member_session).
Proof.
  destruct bearer_token_extraction as (_ & Hbad & Hgood & _).
  split; [vm_compute; reflexivity|]. split.
  - apply Hbad. intros rest H. discriminate H.
  - refine (eq_trans (Hgood "  member-token  " member_session) _).
    vm_compute. reflexivity.
Defined.

(** C8 at a signup without a header and at a duplicate signup. *)
Lemma failure_leaves_store_unchanged_witness :
  fst (serve (PostSignup None "Chess Club" "member@mergington.edu") member_session)
  = Raise Unauthenticated_header
  ∧ snd (serve (PostSignup None "Chess Club" "member@mergington.edu") member_session)
    = member_session
  ∧ snd (signup_for_activity "Chess Club" "michael@mergington.edu" admin_user
           member_session) = member_session.
Proof.
  destruct failure_leaves_store_unchanged as (Hserve & Hsignup & _).
  split; [reflexivity|]. split.
  - apply Hserve with Unauthenticated_header. reflexivity.
  - apply Hsignup with AlreadyRegistered. vm_compute. reflexivity.
Defined.

(** C9 at the Chess Club asked for in lower case. *)
Lemma activity_lookup_case_sensitive_witness :
  signup_for_activity "chess club" "member@mergington.edu" member_user initial_store
  = (Raise NotFound, initial_store)
  ∧ unregister_from_activity "chess club" "member@mergington.edu" member_user
      initial_store
    = (Raise NotFound, initial_store).
Proof.
  apply (activity_lookup_case_sensitive initial_store "Chess Club" "chess club").
  - apply initial_store_reachable.
  - eexists. vm_compute. reflexivity.
  - split; [discriminate|reflexivity].
Defined.

(** C10 at the roles MEMBER and Admin. *)
Lemma register_role_lowercased_witness :
  fst (register_user (RegisterRequest.mk "new@mergington.edu" "secret" "MEMBER")
         initial_store)
  = Return (Registered "Registration successful" "new@mergington.edu" "member")
  ∧ register_user (RegisterRequest.mk "new@mergington.edu" "secret" "Admin")
      initial_store
    = (Raise Forbidden, initial_store).
Proof.
  split.
  - apply (register_role_lowercased initial_store
             (RegisterRequest.mk "new@mergington.edu" "secret" "MEMBER"));
      [reflexivity|vm_compute; reflexivity].
  - apply (register_role_lowercased initial_store
             (RegisterRequest.mk "new@mergington.edu" "secret" "Admin")).
    left. reflexivity.
Defined.

(** ** The scenarios of the specification, run on the model *)

Example scenario_member_signs_up_other :
  fst (serve (PostSignup (Some "Bearer member-token") "Chess Club"
                "otherstudent@mergington.edu") member_session)
  = Raise SignupPermissionDenied.
Proof. vm_compute. reflexivity. Qed.

Example scenario_member_signs_up_twice :
  let request :=
    PostSignup (Some "Bearer member-token") "Chess Club" "member@mergington.edu" in
  let s1 := snd (serve request member_session) in
  fst (serve request member_session)
  = Return (Message "Signed up member@mergington.edu for Chess Club")
  ∧ (participants <$> activities s1 !! "Chess Club")
    = Some ["michael@mergington.edu"; "daniel@mergington.edu"; "member@mergington.edu"]
  ∧ serve request s1 = (Raise AlreadyRegistered, s1).
Proof. vm_compute. repeat split; reflexivity. Qed.

Example scenario_unknown_activity :
  fst (serve (PostSignup (Some "Bearer member-token") "Knitting"
                "member@mergington.edu") member_session) = Raise NotFound
  ∧ fst (serve (DeleteUnregister (Some "Bearer member-token") "Knitting"
                  "member@mergington.edu") member_session) = Raise NotFound
  ∧ fst (serve (PostSignup None "Knitting" "member@mergington.edu") member_session)
    = Raise Unauthenticated_header.
Proof. vm_compute. repeat split; reflexivity. Qed.

Example scenario_logout_revokes :
  let s1 := snd (serve (PostLogout (Some "Bearer member-token")) member_session) in
  active_sessions s1 !! "member-token" = None
  ∧ fst (serve (GetMe (Some "Bearer member-token")) s1) = Raise Unauthenticated_token.
Proof. vm_compute. repeat split; reflexivity. Qed.

(** * Further properties of the handlers *)

(** ** Login and logout, case by case *)

Section Login.
Variables (s : Store) (payload : LoginRequest.t) (token : string).
Let email := PyStr.lower (LoginRequest.email payload).

Lemma login_unknown :
  users s !! email = None →
  login_user payload token s = (Raise AuthFailed, s).
Proof.
  intros H. unfold login_user. fold email. rewrite run_bind_read, H. reflexivity.
Qed.

Variable user_record : UserRecord.t.
Hypothesis Hknown : users s !! email = Some user_record.

Lemma login_wrong_password :
  UserRecord.password_hash user_record
  ≠ hash_password (LoginRequest.password payload) →
  login_user payload token s = (Raise AuthFailed, s).
Proof.
  intros H. unfold login_user. fold email. rewrite run_bind_read, Hknown.
  rewrite (bool_decide_eq_false_2 _ H). reflexivity.
Qed.

Lemma login_ok :
  UserRecord.password_hash user_record
  = hash_password (LoginRequest.password payload) →
  login_user payload token s
  = (Return (LoggedIn "Login successful" token
               (CurrentUser.mk email (UserRecord.role user_record))),
     mkStore (activities s) (users s) (<[token := email]> (active_sessions s))).
Proof.
  intros H. unfold login_user. fold email. rewrite run_bind_read, Hknown.
  rewrite (bool_decide_eq_true_2 _ H). reflexivity.
Qed.

End Login.

Lemma logout_after_dependency header current_user s :
  get_current_user (Some header) s = (Return current_user, s) →
  logout_user (Some header) s
  = (Return (Message ("Logged out " +:+ CurrentUser.email current_user)),
     mkStore (activities s) (users s)
       (delete (PyStr.strip (PyStr.removeprefix "Bearer " header))
               (active_sessions s))).
Proof.
  intros H. unfold logout_user. rewrite (run_bind_return _ _ _ _ _ H). reflexivity.
Qed.

Lemma get_current_user_none s :
  get_current_user None s = (Raise Unauthenticated_header, s).
Proof. reflexivity. Qed.

(** A dependency that only reads either raises or returns, in the same store. *)
Lemma read_only_run {A} (m : M A) s :
  read_only m → (∃ e, m s = (Raise e, s)) ∨ (∃ a, m s = (Return a, s)).
Proof.
  intros Hm. specialize (Hm s).
  destruct (m s) as [[a|e] s']; simpl in Hm; subst s'; eauto.
Qed.

Lemma unregister_return_found s activity_name email current_user response s' :
  unregister_from_activity activity_name email current_user s = (Return response, s') →
  ∃ activity,
    activities s !! activity_name = Some activity
    ∧ ¬ acts_for_other current_user email
    ∧ PyStr.lower email ∈ participants activity.
Proof.
  intros H.
  destruct (activities s !! activity_name) as [activity|] eqn:Hfound;
    [|rewrite unregister_not_found in H by assumption; discriminate].
  destruct (decide (CurrentUser.role current_user = "member"
                    ∧ PyStr.lower email ≠ CurrentUser.email current_user)) as [Hd|Hd];
    [rewrite (unregister_denied _ _ _ _ _ Hfound Hd) in H; discriminate|].
  destruct (decide (PyStr.lower email ∈ participants activity)) as [Hin|Hin];
    [|rewrite (unregister_absent _ _ _ _ _ Hfound Hd Hin) in H; discriminate].
  exists activity. auto.
Qed.

(** ** Every request is one step *)

Lemma raise_is_step {A} (m : M A) s e s' :
  atomic m → m s = (Raise e, s') → store_step s s'.
Proof.
  intros Hm H. specialize (Hm s e). rewrite H in Hm.
  rewrite <- (Hm eq_refl). constructor.
Qed.

Lemma register_user_step payload s : store_step s (snd (register_user payload s)).
Proof.
  destruct (register_user payload s) as [[response|e] s'] eqn:H.
  - apply register_return_inv in H as (_ & Hnew & ->). apply step_register, Hnew.
  - exact (raise_is_step _ _ _ _ (register_user_atomic payload) H).
Qed.

Lemma login_user_step payload token s : store_step s (snd (login_user payload token s)).
Proof.
  destruct (users s !! PyStr.lower (LoginRequest.email payload)) as [u|] eqn:Hu;
    [|rewrite login_unknown by exact Hu; constructor].
  destruct (decide (UserRecord.password_hash u
                    = hash_password (LoginRequest.password payload))) as [Hp|Hp].
  - rewrite (login_ok _ _ _ _ Hu Hp). exact (step_login _ _ _ _ Hu).
  - rewrite (login_wrong_password _ _ _ _ Hu Hp). constructor.
Qed.

Lemma logout_user_step authorization s : store_step s (snd (logout_user authorization s)).
Proof.
  destruct authorization as [header|]; [|constructor].
  destruct (read_only_run _ s (get_current_user_read_only (Some header)))
    as [[e H]|[cu H]].
  - unfold logout_user. rewrite (run_bind_raise _ _ _ _ _ H). constructor.
  - rewrite (logout_after_dependency _ _ _ H). apply step_logout.
Qed.

Lemma signup_for_activity_step activity_name email current_user s :
  store_step s (snd (signup_for_activity activity_name email current_user s)).
Proof.
  destruct (signup_for_activity activity_name email current_user s)
    as [[response|e] s'] eqn:H.
  - apply signup_return_inv in H as (a & Hfound & _ & Hfresh & Hroom & ->).
    exact (step_signup _ _ _ _ Hfound Hfresh Hroom).
  - exact (raise_is_step _ _ _ _ (signup_for_activity_atomic _ _ _) H).
Qed.

Lemma unregister_from_activity_step activity_name email current_user s :
  store_step s (snd (unregister_from_activity activity_name email current_user s)).
Proof.
  destruct (unregister_from_activity activity_name email current_user s)
    as [[response|e] s'] eqn:H.
  - pose proof (unregister_return_found _ _ _ _ _ _ H) as (a & Hfound & _ & Hin).
    apply unregister_return_inv in H as ->.
    exact (step_unregister _ _ _ _ Hfound Hin).
  - exact (raise_is_step _ _ _ _ (unregister_from_activity_atomic _ _ _) H).
Qed.

Lemma serve_store_step r s : store_step s (snd (serve r s)).
Proof.
  destruct r; cbn [serve].
  - constructor.
  - constructor.
  - apply register_user_step.
  - apply login_user_step.
  - apply logout_user_step.
  - rewrite get_me_read_only. constructor.
  - after_dependency (require_roles_read_only all_roles authorization).
    + constructor.
    + apply signup_for_activity_step.
  - after_dependency (require_roles_read_only all_roles authorization).
    + constructor.
    + apply unregister_from_activity_step.
Qed.

(** An invariant of the steps holds in every store the program reaches. *)
Lemma reachable_store_step_ind (P : Store → Prop) :
  P initial_store →
  (∀ s s', store_step s s' → P s → P s') →
  ∀ s, reachable s → P s.
Proof.
  intros H0 Hstep. apply reachable_ind; [exact H0|].
  intros s r. apply Hstep, serve_store_step.
Qed.

(** ** Facts about [list.remove] *)

Lemma remove_subset x y l : y ∈ PyStr.remove x l → y ∈ l.
Proof.
  induction l as [|z l IH]; simpl; [auto|].
  destruct (bool_decide (z = x)).
  - intros H. right. exact H.
  - intros H. apply elem_of_cons in H as [->|H]; [left|right; auto].
Qed.

Lemma remove_NoDup x l : NoDup l → NoDup (PyStr.remove x l).
Proof.
  induction 1 as [|z l Hz Hl IH]; simpl; [constructor|].
  destruct (bool_decide (z = x)); [exact Hl|].
  constructor; [|exact IH]. intros H. apply Hz, (remove_subset x), H.
Qed.

Lemma remove_absent x l : x ∉ l → PyStr.remove x l = l.
Proof.
  induction l as [|z l IH]; intros Hx; simpl; [reflexivity|].
  apply not_elem_of_cons in Hx as [Hne Hx].
  rewrite bool_decide_eq_false_2 by congruence. rewrite IH by exact Hx. reflexivity.
Qed.

(** On a list without duplicates, [remove] is the filter that drops [x]. *)
Lemma remove_NoDup_filter x l :
  NoDup l → PyStr.remove x l = filter (λ y, y ≠ x) l.
Proof.
  induction 1 as [|z l Hz Hl IH]; simpl; [reflexivity|].
  destruct (bool_decide (z = x)) eqn:Hzx.
  - apply bool_decide_eq_true_1 in Hzx. subst z.
    rewrite filter_cons_False by (intros H; apply H; reflexivity).
    rewrite <- IH. symmetry. apply remove_absent, Hz.
  - apply bool_decide_eq_false_1 in Hzx.
    rewrite filter_cons_True by exact Hzx. rewrite IH. reflexivity.
Qed.

Lemma remove_NoDup_gone x l : NoDup l → x ∉ PyStr.remove x l.
Proof.
  intros Hl. rewrite (remove_NoDup_filter x l Hl).
  intros H. apply list_elem_of_filter in H as [Hne _]. apply Hne. reflexivity.
Qed.

(** ** Invariants of the reachable stores *)

(** The nine seeded rosters. *)
Lemma seeded_rosters name a :
  seeded_activities !! name = Some a →
  participants a
  ∈ [ ["michael@mergington.edu"; "daniel@mergington.edu"];
      ["emma@mergington.edu"; "sophia@mergington.edu"];
      ["john@mergington.edu"; "olivia@mergington.edu"];
      ["liam@mergington.edu"; "noah@mergington.edu"];
      ["ava@mergington.edu"; "mia@mergington.edu"];
      ["amelia@mergington.edu"; "harper@mergington.edu"];
      ["ella@mergington.edu"; "scarlett@mergington.edu"];
      ["james@mergington.edu"; "benjamin@mergington.edu"];
      ["charlotte@mergington.edu"; "henry@mergington.edu"] ].
Proof.
  intros H. unfold seeded_activities in H. apply elem_of_list_to_map_2 in H.
  repeat (apply elem_of_cons in H as [[= -> ->]|H];
          [cbn [participants]; set_solver|]).
  apply elem_of_nil in H. destruct H.
Qed.

Lemma seeded_rosters_distinct : rosters_distinct initial_store.
Proof.
  intros name a H. apply seeded_rosters in H.
  repeat (apply elem_of_cons in H as [->|H];
          [apply (bool_decide_unpack _); vm_compute; exact I|]).
  apply elem_of_nil in H. destruct H.
Qed.

Lemma seeded_participants_lowercase name a p :
  seeded_activities !! name = Some a → p ∈ participants a → PyStr.lower p = p.
Proof.
  intros H Hp. apply seeded_rosters in H.
  repeat (apply elem_of_cons in H as [Heq|H];
          [rewrite Heq in Hp;
           repeat (apply elem_of_cons in Hp as [->|Hp]; [reflexivity|]);
           apply elem_of_nil in Hp; destruct Hp|]).
  apply elem_of_nil in H. destruct H.
Qed.

Lemma seeded_user_cases email record :
  seeded_users !! email = Some record →
  (email = "member@mergington.edu" ∧ UserRecord.role record = "member")
  ∨ (email = "admin@mergington.edu" ∧ UserRecord.role record = "admin")
  ∨ (email = "supervisor@mergington.edu" ∧ UserRecord.role record = "supervisor").
Proof.
  intros H. unfold seeded_users in H. apply elem_of_list_to_map_2 in H.
  apply elem_of_cons in H as [[= -> ->]|H]; [left; split; reflexivity|].
  apply elem_of_cons in H as [[= -> ->]|H]; [right; left; split; reflexivity|].
  apply elem_of_cons in H as [[= -> ->]|H]; [right; right; split; reflexivity|].
  apply elem_of_nil in H. destruct H.
Qed.

Lemma store_step_rosters_distinct s s' :
  store_step s s' → rosters_distinct s → rosters_distinct s'.
Proof.
  intros Hstep Hs.
  destruct Hstep as [| | | |n b email Hb Hfresh _|n b email Hb _];
    try exact Hs; intros name a Ha; cbn [activities] in Ha;
    (apply lookup_alter_Some in Ha as [(-> & b' & Hb' & ->)|[_ Ha]];
     [|exact (Hs name a Ha)]);
    cbn [with_participants participants].
  - rewrite Hb in Hb'. injection Hb' as <-.
    apply NoDup_app. split; [exact (Hs _ _ Hb)|]. split.
    + intros x Hx Hx'. apply list_elem_of_singleton in Hx'. subst x. auto.
    + apply NoDup_singleton.
  - apply remove_NoDup, (Hs _ _ Hb').
Qed.

Lemma store_step_emails_lowercase s s' :
  store_step s s' → emails_lowercase s → emails_lowercase s'.
Proof.
  intros Hstep (Hp & Hu & Ht).
  destruct Hstep as [|email password Hnew|email token u Hu'|token
                     |n b email Hb _ _|n b email Hb _];
    [split; [|split]; assumption|..]; (split; [|split]); cbn [activities users active_sessions];
    try assumption.
  - intros k record Hk. apply lookup_insert_Some in Hk as [[<- _]|[_ Hk]];
      [apply lower_idempotent|exact (Hu _ _ Hk)].
  - intros t e He. apply lookup_insert_Some in He as [[_ <-]|[_ He]];
      [apply lower_idempotent|exact (Ht _ _ He)].
  - intros t e He. apply lookup_delete_Some in He as [_ He]. exact (Ht _ _ He).
  - intros name a p Ha Hin.
    apply lookup_alter_Some in Ha as [(-> & b' & Hb' & ->)|[_ Ha]];
      [|exact (Hp _ _ _ Ha Hin)].
    cbn [with_participants participants] in Hin.
    apply elem_of_app in Hin as [Hin|Hin]; [exact (Hp _ _ _ Hb' Hin)|].
    apply list_elem_of_singleton in Hin. subst p. apply lower_idempotent.
  - intros name a p Ha Hin.
    apply lookup_alter_Some in Ha as [(-> & b' & Hb' & ->)|[_ Ha]];
      [|exact (Hp _ _ _ Ha Hin)].
    cbn [with_participants participants] in Hin.
    apply remove_subset in Hin. exact (Hp _ _ _ Hb' Hin).
Qed.

Lemma seeded_emails_lowercase : emails_lowercase initial_store.
Proof.
  split; [|split].
  - intros name a p. apply seeded_participants_lowercase.
  - intros email record H. cbn [users initial_store] in H.
    apply seeded_user_cases in H as [[-> _] | [[-> _] | [-> _]]]; reflexivity.
  - intros token email H. cbn [active_sessions initial_store] in H.
    rewrite lookup_empty in H. discriminate H.
Qed.

Lemma reachable_rosters_distinct s : reachable s → rosters_distinct s.
Proof.
  exact (reachable_store_step_ind rosters_distinct seeded_rosters_distinct
           store_step_rosters_distinct s).
Qed.

(** X2.  However the requests come, no roster ever holds an email twice:
    signup appends only an email that is not there, and unregister takes
    one out of a list without repetitions. *)
Theorem rosters_without_duplicates (rs : list Request) (name : string) (a : Activity) :
  activities (serve_all rs initial_store) !! name = Some a →
  NoDup (participants a).
Proof.
  revert name a. apply reachable_rosters_distinct. exists rs. reflexivity.
Qed.

Lemma rosters_without_duplicates_witness :
  ∃ a, activities full_store !! "Math Club" = Some a
       ∧ length (participants a) = 10%nat ∧ NoDup (participants a).
Proof.
  eexists. split; [vm_compute; reflexivity|]. split; [reflexivity|].
  apply (rosters_without_duplicates fill_math_club "Math Club").
  vm_compute. reflexivity.
Defined.

(** X3.  Every email a reachable store holds is in lower case: the
    participants of every roster, the keys of [users] and the owners of
    the sessions.  Comparing a lowercased request email with them is
    therefore a comparison up to case. *)
Theorem stored_emails_lowercase (rs : list Request) :
  let s := serve_all rs initial_store in
  (∀ name a p, activities s !! name = Some a → p ∈ participants a →
     PyStr.lower p = p)
  ∧ (∀ email record, users s !! email = Some record → PyStr.lower email = email)
  ∧ (∀ token email, active_sessions s !! token = Some email →
       PyStr.lower email = email).
Proof.
  apply (reachable_store_step_ind emails_lowercase seeded_emails_lowercase
           store_step_emails_lowercase).
  exists rs. reflexivity.
Qed.

Lemma stored_emails_lowercase_witness :
  active_sessions member_session !! "member-token" = Some "member@mergington.edu"
  ∧ PyStr.lower "member@mergington.edu" = "member@mergington.edu".
Proof.
  assert (active_sessions member_session !! "member-token"
          = Some "member@mergington.edu") as H by (vm_compute; reflexivity).
  split; [exact H|].
  exact (proj2 (proj2 (stored_emails_lowercase
                         [PostLogin (LoginRequest.mk "MEMBER@mergington.edu" "member123")
                                    "member-token"]))
               "member-token" "member@mergington.edu" H).
Defined.

(** ** Users are only ever added *)

Lemma store_step_users_kept s s' email record :
  store_step s s' → users s !! email = Some record → users s' !! email = Some record.
Proof.
  intros Hstep H.
  destruct Hstep as [|email' password Hnew| | | |]; try exact H.
  cbn [users]. rewrite lookup_insert_ne; [exact H|].
  intros <-. rewrite Hnew in H. discriminate H.
Qed.

(** X4.  No request removes a user or changes a stored record: an entry
    of [users] is still there, with the same digest and role, after any
    sequence of requests.  In particular there is no way to change a
    password or a role. *)
Theorem users_are_kept (rs : list Request) (s : Store) (email : string)
    (record : UserRecord.t) :
  users s !! email = Some record →
  users (serve_all rs s) !! email = Some record.
Proof.
  revert s. induction rs as [|r rs IH]; intros s H; [exact H|].
  apply IH. exact (store_step_users_kept _ _ _ _ (serve_store_step r s) H).
Qed.

Lemma users_are_kept_witness :
  ∃ record,
    users initial_store !! "admin@mergington.edu" = Some record
    ∧ users (serve_all
               (PostRegister (RegisterRequest.mk "Admin@mergington.edu" "guess" "member")
                :: fill_math_club) initial_store) !! "admin@mergington.edu"
      = Some record.
Proof.
  assert (∃ record, users initial_store !! "admin@mergington.edu" = Some record)
    as [record H] by (eexists; vm_compute; reflexivity).
  exists record. split; [exact H|].
  exact (users_are_kept _ initial_store _ _ H).
Defined.

(** ** The descriptions, schedules and capacities never change *)

Lemma store_step_metadata s s' :
  store_step s s' → metadata_seeded s → metadata_seeded s'.
Proof.
  intros Hstep [Hdom Hmeta].
  destruct Hstep as [| | | |n b email Hb _ _|n b email Hb _];
    try (split; assumption);
    (split; [cbn [activities]; rewrite dom_alter_L; exact Hdom|]);
    intros name a Ha; cbn [activities] in Ha;
    (apply lookup_alter_Some in Ha as [(-> & b' & Hb' & ->)|[_ Ha]];
     [exact (Hmeta _ _ Hb')|exact (Hmeta _ _ Ha)]).
Qed.

Lemma seeded_metadata : metadata_seeded initial_store.
Proof. split; [reflexivity|]. intros name a H. exists a. auto. Qed.

(** X7.  Signup and unregister touch participants only: in every reachable
    store the activities are exactly the seeded ones, each with its seeded
    description, schedule and capacity. *)
Theorem activity_metadata_fixed (rs : list Request) :
  let s := serve_all rs initial_store in
  dom (activities s) = dom seeded_activities
  ∧ ∀ name a, activities s !! name = Some a →
      ∃ a0, seeded_activities !! name = Some a0
            ∧ description a = description a0
            ∧ schedule a = schedule a0
            ∧ max_participants a = max_participants a0.
Proof.
  apply (reachable_store_step_ind metadata_seeded seeded_metadata store_step_metadata).
  exists rs. reflexivity.
Qed.

Lemma activity_metadata_fixed_witness :
  ∃ a, activities full_store !! "Math Club" = Some a
       ∧ max_participants a = 10
       ∧ ∃ a0, seeded_activities !! "Math Club" = Some a0
               ∧ description a = description a0
               ∧ schedule a = schedule a0
               ∧ max_participants a = max_participants a0.
Proof.
  assert (∃ a, activities full_store !! "Math Club" = Some a
               ∧ max_participants a = 10) as (a & Ha & Hmax).
  { eexists. split; [vm_compute; reflexivity|reflexivity]. }
  exists a. split; [exact Ha|]. split; [exact Hmax|].
  exact (proj2 (activity_metadata_fixed fill_math_club) "Math Club" a Ha).
Defined.

(** ** What [get_current_user] can answer *)

Lemma get_current_user_return_inv authorization s current_user s' :
  get_current_user authorization s = (Return current_user, s') →
  ∃ header record,
    authorization = Some header
    ∧ PyStr.startswith "Bearer " header = true
    ∧ active_sessions s !! PyStr.strip (PyStr.removeprefix "Bearer " header)
      = Some (CurrentUser.email current_user)
    ∧ users s !! CurrentUser.email current_user = Some record
    ∧ CurrentUser.role current_user = UserRecord.role record
    ∧ s' = s.
Proof.
  unfold get_current_user. destruct authorization as [header|]; [|discriminate].
  destruct (bool_decide (header = "")); [discriminate|].
  destruct (PyStr.startswith "Bearer " header) eqn:Hp; [|discriminate].
  cbn [negb orb]. rewrite run_bind_read.
  destruct (active_sessions s !! _) as [[|c email]|] eqn:Ht; try discriminate.
  rewrite run_bind_read.
  destruct (users s !! String c email) as [record|] eqn:Hu; [|discriminate].
  intros [= <- <-]. exists header, record.
  cbn [CurrentUser.email CurrentUser.role]. repeat split; assumption || reflexivity.
Qed.

Lemma get_current_user_raise_inv authorization s e s' :
  get_current_user authorization s = (Raise e, s') →
  e = Unauthenticated_header ∨ e = Unauthenticated_token
  ∨ (e = Unauthenticated_user
     ∧ ∃ token email, active_sessions s !! token = Some email
                      ∧ users s !! email = None).
Proof.
  unfold get_current_user. destruct authorization as [header|];
    [|intros [= <- _]; auto].
  destruct (_ || _); [intros [= <- _]; auto|].
  rewrite run_bind_read.
  destruct (active_sessions s !! _) as [[|c email]|] eqn:Ht;
    try (intros [= <- _]; auto).
  rewrite run_bind_read.
  destruct (users s !! String c email) as [record|] eqn:Hu; [discriminate|].
  intros [= <- _]. right. right. split; [reflexivity|]. eauto.
Qed.

(** ** Roles and session owners *)

Lemma store_step_roles_valid s s' :
  store_step s s' → roles_valid s → roles_valid s'.
Proof.
  intros Hstep Hs.
  destruct Hstep as [|email' password Hnew| | | |]; try exact Hs.
  intros email record H. cbn [users] in H.
  apply lookup_insert_Some in H as [[_ <-]|[_ H]]; [|exact (Hs _ _ H)].
  apply ROLES_spec. left. reflexivity.
Qed.

Lemma seeded_roles_valid : roles_valid initial_store.
Proof.
  intros email record H. cbn [users initial_store] in H.
  apply ROLES_spec.
  apply seeded_user_cases in H as [[_ ->] | [[_ ->] | [_ ->]]]; auto.
Qed.

Lemma store_step_sessions_owned s s' :
  store_step s s' → sessions_owned s → sessions_owned s'.
Proof.
  intros Hstep Hs.
  destruct Hstep as [|email' password Hnew|email' token' u Hu|token'| |];
    try exact Hs; intros token email H; cbn [users active_sessions] in *.
  - apply lookup_insert_is_Some'. right. exact (Hs _ _ H).
  - apply lookup_insert_Some in H as [[_ <-]|[_ H]]; [eauto|exact (Hs _ _ H)].
  - apply lookup_delete_Some in H as [_ H]. exact (Hs _ _ H).
Qed.

Lemma seeded_sessions_owned : sessions_owned initial_store.
Proof.
  intros token email H. cbn [active_sessions initial_store] in H.
  rewrite lookup_empty in H. discriminate H.
Qed.

Lemma role_allowed role : role ∈ ROLES → PyStr.contains role all_roles = true.
Proof.
  intros H. apply bool_decide_eq_true_2. unfold all_roles.
  apply ROLES_spec in H as [-> | [-> | ->]]; set_solver.
Qed.

(** X5.  In a reachable store every stored role is one of the three, so
    the role gate in front of signup and unregister, which allows all
    three, lets every authenticated caller through: it answers exactly as
    [get_current_user] does and its 403 is never raised. *)
Theorem role_gate_never_fires (rs : list Request) (authorization : option string) :
  let s := serve_all rs initial_store in
  (∀ email record, users s !! email = Some record →
     UserRecord.role record ∈ ROLES)
  ∧ require_roles all_roles authorization s = get_current_user authorization s.
Proof.
  intros s.
  assert (roles_valid s) as Hroles.
  { apply (reachable_store_step_ind roles_valid seeded_roles_valid
             store_step_roles_valid). exists rs. reflexivity. }
  split; [exact Hroles|].
  unfold require_roles.
  destruct (read_only_run _ s (get_current_user_read_only authorization))
    as [[e H]|[cu H]].
  - rewrite (run_bind_raise _ _ _ _ _ H), H. reflexivity.
  - rewrite (run_bind_return _ _ _ _ _ H), H.
    apply get_current_user_return_inv in H
      as (header & record & _ & _ & _ & Hu & Hrole & _).
    rewrite Hrole, (role_allowed _ (Hroles _ _ Hu)). reflexivity.
Qed.

(** X6.  In a reachable store every session belongs to a registered user
    (users are never removed), so [get_current_user] fails only for a bad
    header or an unknown token: its "User not found" answer is never
    given. *)
Theorem sessions_have_owners (rs : list Request) :
  let s := serve_all rs initial_store in
  (∀ token email, active_sessions s !! token = Some email →
     is_Some (users s !! email))
  ∧ (∀ authorization e,
       fst (get_current_user authorization s) = Raise e →
       e = Unauthenticated_header ∨ e = Unauthenticated_token).
Proof.
  intros s.
  assert (sessions_owned s) as Howned.
  { apply (reachable_store_step_ind sessions_owned seeded_sessions_owned
             store_step_sessions_owned). exists rs. reflexivity. }
  split; [exact Howned|].
  intros authorization e H.
  destruct (get_current_user authorization s) as [[cu|e'] s'] eqn:Hrun;
    [discriminate H|]. injection H as ->.
  apply get_current_user_raise_inv in Hrun
    as [->|[->|(_ & token & email & Ht & Hu)]]; auto.
  destruct (Howned _ _ Ht) as [record Hsome]. rewrite Hu in Hsome. discriminate.
Qed.

Lemma sessions_have_owners_witness :
  is_Some (users member_session !! "member@mergington.edu")
  ∧ (Unauthenticated_token = Unauthenticated_header
     ∨ Unauthenticated_token = Unauthenticated_token).
Proof.
  pose proof (sessions_have_owners
                [PostLogin (LoginRequest.mk "MEMBER@mergington.edu" "member123")
                           "member-token"]) as [Howned Hfail].
  split.
  - apply (Howned "member-token"). vm_compute. reflexivity.
  - apply (Hfail (Some "Bearer stale-token")). vm_compute. reflexivity.
Defined.

Lemma role_gate_never_fires_witness :
  require_roles all_roles (Some "Bearer admin-token") full_store
  = (Return admin_user, full_store).
Proof.
  refine (eq_trans (proj2 (role_gate_never_fires fill_math_club
                             (Some "Bearer admin-token"))) _).
  vm_compute. reflexivity.
Defined.

(** ** The order of the checks in unregister *)

(** X1.  [unregister_from_activity] answers with the first failure in the
    order NotFound, PermissionDenied, NotRegistered, whatever the later
    conditions are, and leaves the store as it was; when none applies it
    removes the email's first occurrence from that roster and touches
    nothing else. *)
Theorem unregister_check_order (s : Store) (activity_name email : string)
    (current_user : CurrentUser.t) :
  let result := unregister_from_activity activity_name email current_user s in
  (activities s !! activity_name = None → result = (Raise NotFound, s))
  ∧ (∀ activity, activities s !! activity_name = Some activity →
       (acts_for_other current_user email →
        result = (Raise UnregisterPermissionDenied, s))
       ∧ (¬ acts_for_other current_user email →
          PyStr.lower email ∉ participants activity →
          result = (Raise NotRegistered, s))
       ∧ (¬ acts_for_other current_user email →
          PyStr.lower email ∈ participants activity →
          result
          = (Return (Message ("Unregistered " +:+ PyStr.lower email
                              +:+ " from " +:+ activity_name)),
             mkStore
               (<[activity_name :=
                    mkActivity (description activity) (schedule activity)
                      (max_participants activity)
                      (PyStr.remove (PyStr.lower email) (participants activity))]>
                  (activities s))
               (users s) (active_sessions s)))).
Proof.
  split; [apply unregister_not_found|].
  intros activity Hfound. split; [|split].
  - apply unregister_denied with activity. exact Hfound.
  - apply unregister_absent. exact Hfound.
  - intros Hallowed Hin. rewrite (unregister_ok _ _ _ _ _ Hfound Hallowed Hin).
    do 2 f_equal. apply map_eq. intros name.
    rewrite lookup_alter, lookup_insert.
    destruct (decide (activity_name = name)) as [->|]; [|reflexivity].
    rewrite Hfound. reflexivity.
Qed.

Lemma unregister_check_order_witness :
  unregister_from_activity "Knitting" "daniel@mergington.edu" member_user initial_store
  = (Raise NotFound, initial_store)
  ∧ unregister_from_activity "Chess Club" "daniel@mergington.edu" member_user
      initial_store
    = (Raise UnregisterPermissionDenied, initial_store)
  ∧ unregister_from_activity "Chess Club" "member@mergington.edu" member_user
      initial_store
    = (Raise NotRegistered, initial_store).
Proof.
  assert (∃ activity, activities initial_store !! "Chess Club" = Some activity
                      ∧ PyStr.lower "member@mergington.edu" ∉ participants activity)
    as (activity & Hfound & Hout).
  { eexists. split; [vm_compute; reflexivity|].
    apply (bool_decide_unpack _). vm_compute. exact I. }
  split; [|split].
  - apply (unregister_check_order initial_store "Knitting" "daniel@mergington.edu"
             member_user). vm_compute. reflexivity.
  - apply (unregister_check_order initial_store "Chess Club" "daniel@mergington.edu"
             member_user) with activity; [exact Hfound|].
    split; [reflexivity|discriminate].
  - apply (unregister_check_order initial_store "Chess Club" "member@mergington.edu"
             member_user) with activity; [exact Hfound| |exact Hout].
    intros [_ Hne]. apply Hne. reflexivity.
Defined.

(** ** Login *)

(** X9.  A login for an email that is not registered and a login with a
    wrong password get the same answer, 401 with one and the same detail,
    and change nothing; a login with the stored digest's password succeeds
    whatever token is drawn, returns the stored role and records the
    session under that token.  The email is compared in lower case. *)
Theorem login_outcome (s : Store) (payload : LoginRequest.t) (token : string) :
  let email := PyStr.lower (LoginRequest.email payload) in
  let result := login_user payload token s in
  (users s !! email = None →
   result = (Raise (mkHTTPException 401 "Invalid email or password"), s))
  ∧ (∀ record, users s !! email = Some record →
       (UserRecord.password_hash record
        ≠ hash_password (LoginRequest.password payload) →
        result = (Raise (mkHTTPException 401 "Invalid email or password"), s))
       ∧ (UserRecord.password_hash record
          = hash_password (LoginRequest.password payload) →
          result
          = (Return (LoggedIn "Login successful" token
                       (CurrentUser.mk email (UserRecord.role record))),
             mkStore (activities s) (users s)
               (<[token := email]> (active_sessions s))))).
Proof.
  split; [apply login_unknown|].
  intros record Hknown. split.
  - apply login_wrong_password. exact Hknown.
  - apply login_ok. exact Hknown.
Qed.

Lemma login_outcome_witness :
  login_user (LoginRequest.mk "nobody@mergington.edu" "member123") "t" initial_store
  = (Raise AuthFailed, initial_store)
  ∧ login_user (LoginRequest.mk "Admin@Mergington.edu" "member123") "t" initial_store
    = (Raise AuthFailed, initial_store)
  ∧ fst (login_user (LoginRequest.mk "Admin@Mergington.edu" "admin123") "t"
           initial_store)
    = Return (LoggedIn "Login successful" "t" admin_user).
Proof.
  assert (∃ record, users initial_store !! "admin@mergington.edu" = Some record
                    ∧ UserRecord.password_hash record = hash_password "admin123"
                    ∧ UserRecord.role record = "admin")
    as (record & Hknown & Hhash & Hrole).
  { eexists. split; [vm_compute; reflexivity|]. split; vm_compute; reflexivity. }
  split; [|split].
  - apply (login_outcome initial_store
             (LoginRequest.mk "nobody@mergington.edu" "member123") "t").
    vm_compute. reflexivity.
  - apply (login_outcome initial_store
             (LoginRequest.mk "Admin@Mergington.edu" "member123") "t")
      with record; [exact Hknown|].
    rewrite Hhash. vm_compute. discriminate.
  - rewrite (proj2 (proj2 (login_outcome initial_store
                             (LoginRequest.mk "Admin@Mergington.edu" "admin123") "t")
                      record Hknown) Hhash).
    cbn [fst]. rewrite Hrole. reflexivity.
Defined.

(** X10.  The token a successful login hands out authenticates its owner
    at once: presented as ["Bearer " ++ token], it makes [get_current_user]
    return the very email and role the login returned.  This needs the
    token to have no whitespace at its ends (the header's token is
    stripped) and the email not to be empty (an empty owner counts as no
    session). *)
Theorem login_then_authenticate (s s1 : Store) (payload : LoginRequest.t)
    (token : string) (response : Response) :
  login_user payload token s = (Return response, s1) →
  PyStr.strip token = token →
  PyStr.lower (LoginRequest.email payload) ≠ "" →
  ∃ user,
    response = LoggedIn "Login successful" token user
    ∧ CurrentUser.email user = PyStr.lower (LoginRequest.email payload)
    ∧ get_current_user (Some ("Bearer " +:+ token)) s1 = (Return user, s1)
    ∧ get_me (Some ("Bearer " +:+ token)) s1 = (Return (Identity user), s1).
Proof.
  intros Hlogin Htoken Hemail.
  destruct (users s !! PyStr.lower (LoginRequest.email payload)) as [record|] eqn:Hu;
    [|rewrite login_unknown in Hlogin by exact Hu; discriminate].
  destruct (decide (UserRecord.password_hash record
                    = hash_password (LoginRequest.password payload))) as [Hp|Hp];
    [|rewrite (login_wrong_password _ _ _ _ Hu Hp) in Hlogin; discriminate].
  rewrite (login_ok _ _ _ _ Hu Hp) in Hlogin. injection Hlogin as <- <-.
  eexists. split; [reflexivity|]. split; [reflexivity|].
  assert (get_current_user (Some ("Bearer " +:+ token))
            (mkStore (activities s) (users s)
               (<[token := PyStr.lower (LoginRequest.email payload)]>
                  (active_sessions s)))
          = (Return (CurrentUser.mk (PyStr.lower (LoginRequest.email payload))
                       (UserRecord.role record)),
             mkStore (activities s) (users s)
               (<[token := PyStr.lower (LoginRequest.email payload)]>
                  (active_sessions s)))) as Hresolve.
  { unfold get_current_user.
    replace (PyStr.startswith "Bearer " ("Bearer " +:+ token)) with true
      by (symmetry; apply startswith_iff; eauto).
    rewrite removeprefix_app, Htoken.
    replace (bool_decide ("Bearer " +:+ token = "")) with false by reflexivity.
    cbn [orb negb]. rewrite run_bind_read. cbn [active_sessions].
    rewrite lookup_insert_eq.
    destruct (PyStr.lower (LoginRequest.email payload)) as [|c rest] eqn:Hl;
      [destruct Hemail; reflexivity|].
    rewrite run_bind_read. cbn [users]. rewrite Hu. reflexivity. }
  split; [exact Hresolve|].
  unfold get_me. rewrite (run_bind_return _ _ _ _ _ Hresolve). reflexivity.
Qed.

Lemma login_then_authenticate_witness :
  ∃ s1,
    login_user (LoginRequest.mk "Supervisor@mergington.edu" "supervisor123")
      "Zm9vYmFy" initial_store
    = (Return (LoggedIn "Login successful" "Zm9vYmFy"
                 (CurrentUser.mk "supervisor@mergington.edu" "supervisor")), s1)
    ∧ get_me (Some "Bearer Zm9vYmFy") s1
      = (Return (Identity (CurrentUser.mk "supervisor@mergington.edu" "supervisor")),
         s1).
Proof.
  assert (∃ s1,
    login_user (LoginRequest.mk "Supervisor@mergington.edu" "supervisor123")
      "Zm9vYmFy" initial_store
    = (Return (LoggedIn "Login successful" "Zm9vYmFy"
                 (CurrentUser.mk "supervisor@mergington.edu" "supervisor")), s1))
    as [s1 Hlogin].
  { eexists. vm_compute. reflexivity. }
  exists s1. split; [exact Hlogin|].
  destruct (login_then_authenticate initial_store s1 _ _ _ Hlogin eq_refl)
    as (user & Hresponse & _ & _ & Hme); [discriminate|].
  injection Hresponse as <-. exact Hme.
Defined.

(** ** Logout *)

(** X11.  A logout that succeeds revokes the presented token and nothing
    else: the same header no longer authenticates (401, unknown token), so
    a second logout with it fails and changes nothing; every other
    session, the users and the rosters are as before. *)
Theorem logout_revokes_token (s s1 : Store) (header : string) (response : Response) :
  logout_user (Some header) s = (Return response, s1) →
  let token := PyStr.strip (PyStr.removeprefix "Bearer " header) in
  get_current_user (Some header) s1 = (Raise Unauthenticated_token, s1)
  ∧ logout_user (Some header) s1 = (Raise Unauthenticated_token, s1)
  ∧ active_sessions s1 !! token = None
  ∧ (∀ other, other ≠ token → active_sessions s1 !! other = active_sessions s !! other)
  ∧ users s1 = users s
  ∧ activities s1 = activities s.
Proof.
  intros Hlogout token.
  destruct (read_only_run _ s (get_current_user_read_only (Some header)))
    as [[e H]|[cu H]].
  { unfold logout_user in Hlogout. rewrite (run_bind_raise _ _ _ _ _ H) in Hlogout.
    discriminate Hlogout. }
  rewrite (logout_after_dependency _ _ _ H) in Hlogout. injection Hlogout as _ <-.
  apply get_current_user_return_inv in H as (h & record & [= <-] & Hp & _).
  assert (get_current_user (Some header)
            (mkStore (activities s) (users s) (delete token (active_sessions s)))
          = (Raise Unauthenticated_token,
             mkStore (activities s) (users s) (delete token (active_sessions s))))
    as Hgone.
  { unfold get_current_user. rewrite Hp.
    destruct (bool_decide (header = "")) eqn:Hempty.
    - apply bool_decide_eq_true_1 in Hempty. subst header. discriminate Hp.
    - cbn [orb negb]. rewrite run_bind_read. cbn [active_sessions].
      fold token. rewrite lookup_delete_eq. reflexivity. }
  split; [exact Hgone|]. split.
  - unfold logout_user. rewrite (run_bind_raise _ _ _ _ _ Hgone). reflexivity.
  - cbn [active_sessions users activities].
    split; [apply lookup_delete_eq|]. split; [|split; reflexivity].
    intros other Hother. apply lookup_delete_ne.
    intros Heq. apply Hother. symmetry. exact Heq.
Qed.

Lemma logout_revokes_token_witness :
  ∃ s1,
    logout_user (Some "Bearer member-token") member_session
    = (Return (Message "Logged out member@mergington.edu"), s1)
    ∧ get_current_user (Some "Bearer member-token") s1
      = (Raise Unauthenticated_token, s1).
Proof.
  assert (∃ s1,
    logout_user (Some "Bearer member-token") member_session
    = (Return (Message "Logged out member@mergington.edu"), s1)) as [s1 H].
  { eexists. vm_compute. reflexivity. }
  exists s1. split; [exact H|].
  exact (proj1 (logout_revokes_token member_session s1 _ _ H)).
Defined.

(** ** Which dictionary a request can touch *)

(** X12.  Each endpoint writes to one dictionary at most: the GET
    endpoints leave the whole store alone, register touches only [users],
    login and logout only [active_sessions], signup and unregister only
    [activities]. *)
Theorem request_frame (r : Request) (s : Store) :
  let s' := snd (serve r s) in
  match r with
  | GetRoot | GetActivities | GetMe _ => s' = s
  | PostRegister _ =>
      activities s' = activities s ∧ active_sessions s' = active_sessions s
  | PostLogin _ _ | PostLogout _ =>
      activities s' = activities s ∧ users s' = users s
  | PostSignup _ _ _ | DeleteUnregister _ _ _ =>
      users s' = users s ∧ active_sessions s' = active_sessions s
  end.
Proof.
  destruct r; cbn [serve].
  - reflexivity.
  - reflexivity.
  - destruct (register_user payload s) as [[response|e] s'] eqn:H.
    + apply register_return_inv in H as (_ & _ & ->). split; reflexivity.
    + pose proof (register_user_atomic payload s e) as Ha.
      rewrite H in Ha. cbn [fst snd] in *. rewrite (Ha eq_refl). split; reflexivity.
  - split; [apply login_user_activities|].
    destruct (users s !! PyStr.lower (LoginRequest.email payload)) as [u|] eqn:Hu;
      [|rewrite login_unknown by exact Hu; reflexivity].
    destruct (decide (UserRecord.password_hash u
                      = hash_password (LoginRequest.password payload))) as [Hp|Hp].
    + rewrite (login_ok _ _ _ _ Hu Hp). reflexivity.
    + rewrite (login_wrong_password _ _ _ _ Hu Hp). reflexivity.
  - split; [apply logout_user_activities|].
    destruct authorization as [header|]; [|reflexivity].
    destruct (read_only_run _ s (get_current_user_read_only (Some header)))
      as [[e H]|[cu H]].
    + unfold logout_user. rewrite (run_bind_raise _ _ _ _ _ H). reflexivity.
    + rewrite (logout_after_dependency _ _ _ H). reflexivity.
  - apply get_me_read_only.
  - after_dependency (require_roles_read_only all_roles authorization);
      [split; reflexivity|].
    destruct (signup_for_activity activity_name email cu s) as [[response|e] s'] eqn:H.
    + apply signup_return_inv in H as (a & _ & _ & _ & _ & ->). split; reflexivity.
    + pose proof (signup_for_activity_atomic activity_name email cu s e) as Ha.
      rewrite H in Ha. cbn [fst snd] in *. rewrite (Ha eq_refl). split; reflexivity.
  - after_dependency (require_roles_read_only all_roles authorization);
      [split; reflexivity|].
    destruct (unregister_from_activity activity_name email cu s)
      as [[response|e] s'] eqn:H.
    + apply unregister_return_inv in H as ->. split; reflexivity.
    + pose proof (unregister_from_activity_atomic activity_name email cu s e) as Ha.
      rewrite H in Ha. cbn [fst snd] in *. rewrite (Ha eq_refl). split; reflexivity.
Qed.

(** ** Authentication comes before everything else *)

(** X13.  When [get_current_user] rejects the header, the four endpoints
    that depend on it answer with that very rejection and change nothing,
    whatever the activity name and email are: an unknown activity is
    reported only to an authenticated caller. *)
Theorem authentication_comes_first (authorization : option string) (s s' : Store)
    (e : HTTPException) :
  get_current_user authorization s = (Raise e, s') →
  status_code e = 401
  ∧ serve (PostLogout authorization) s = (Raise e, s)
  ∧ serve (GetMe authorization) s = (Raise e, s)
  ∧ ∀ activity_name email,
      serve (PostSignup authorization activity_name email) s = (Raise e, s)
      ∧ serve (DeleteUnregister authorization activity_name email) s = (Raise e, s).
Proof.
  intros H.
  assert (s' = s) as ->.
  { pose proof (get_current_user_read_only authorization s) as Hr.
    rewrite H in Hr. exact Hr. }
  split.
  { apply get_current_user_raise_inv in H as [->|[->|[-> _]]]; reflexivity. }
  assert (require_roles all_roles authorization s = (Raise e, s)) as Hgate.
  { unfold require_roles. rewrite (run_bind_raise _ _ _ _ _ H). reflexivity. }
  cbn [serve]. split; [|split].
  - unfold logout_user. rewrite (run_bind_raise _ _ _ _ _ H). reflexivity.
  - unfold get_me. rewrite (run_bind_raise _ _ _ _ _ H). reflexivity.
  - intros activity_name email.
    rewrite !(run_bind_raise _ _ _ _ _ Hgate). split; reflexivity.
Qed.

Lemma authentication_comes_first_witness :
  serve (PostSignup (Some "Basic member-token") "Knitting" "x@mergington.edu")
    member_session
  = (Raise Unauthenticated_header, member_session)
  ∧ serve (DeleteUnregister (Some "Bearer stale") "Knitting" "x@mergington.edu")
      member_session
    = (Raise Unauthenticated_token, member_session).
Proof.
  split.
  - apply (authentication_comes_first (Some "Basic member-token") member_session
             member_session Unauthenticated_header); reflexivity.
  - apply (authentication_comes_first (Some "Bearer stale") member_session
             member_session Unauthenticated_token). vm_compute. reflexivity.
Defined.

(** ** The failures each endpoint can give *)









(** ** Signing up twice, unregistering twice *)

(** X14.  Once a signup has succeeded the email is the last entry of that
    roster, and a second signup for the same activity with an email equal
    up to case, by any caller allowed to act for it, is refused as
    AlreadyRegistered and changes nothing. *)
Theorem signup_twice_rejected (s s1 : Store) (activity_name email email' : string)
    (current_user current_user' : CurrentUser.t) (response : Response) :
  signup_for_activity activity_name email current_user s = (Return response, s1) →
  PyStr.lower email' = PyStr.lower email →
  ¬ acts_for_other current_user' email' →
  (∃ before after,
     activities s !! activity_name = Some before
     ∧ activities s1 !! activity_name = Some after
     ∧ participants after = (participants before ++ [PyStr.lower email])%list)
  ∧ signup_for_activity activity_name email' current_user' s1
    = (Raise AlreadyRegistered, s1).
Proof.
  intros Hsignup Hemail Hallowed.
  apply signup_return_inv in Hsignup as (before & Hfound & _ & _ & _ & ->).
  assert (activities
            (mkStore (alter (with_participants (λ l, (l ++ [PyStr.lower email])%list))
                            activity_name (activities s))
                     (users s) (active_sessions s)) !! activity_name
          = Some (with_participants (λ l, (l ++ [PyStr.lower email])%list) before))
    as Hafter.
  { cbn [activities]. rewrite lookup_alter_eq, Hfound. reflexivity. }
  split.
  - exists before. eexists. split; [exact Hfound|]. split; [exact Hafter|reflexivity].
  - apply (signup_duplicate _ _ _ _ _ Hafter Hallowed).
    rewrite Hemail. cbn [with_participants participants].
    apply elem_of_app. right. apply list_elem_of_singleton. reflexivity.
Qed.

Lemma signup_twice_rejected_witness :
  ∃ s1,
    signup_for_activity "Art Club" "Member@mergington.edu" member_user initial_store
    = (Return (Message "Signed up member@mergington.edu for Art Club"), s1)
    ∧ signup_for_activity "Art Club" "MEMBER@MERGINGTON.EDU" admin_user s1
      = (Raise AlreadyRegistered, s1).
Proof.
  assert (∃ s1,
    signup_for_activity "Art Club" "Member@mergington.edu" member_user initial_store
    = (Return (Message "Signed up member@mergington.edu for Art Club"), s1))
    as [s1 H].
  { eexists. vm_compute. reflexivity. }
  exists s1. split; [exact H|].
  exact (proj2 (signup_twice_rejected initial_store s1 "Art Club"
                  "Member@mergington.edu" "MEMBER@MERGINGTON.EDU"
                  member_user admin_user _ H eq_refl (admin_acts_for_anyone _))).
Defined.

(** X15.  On a roster without repetitions (every reachable roster is one),
    a successful unregister leaves the other participants in their order
    and the email gone, so an immediate second unregister of it is refused
    as NotRegistered. *)
Theorem unregister_removes_email (s s1 : Store) (activity_name email : string)
    (current_user current_user' : CurrentUser.t) (response : Response) :
  rosters_distinct s →
  unregister_from_activity activity_name email current_user s = (Return response, s1) →
  ¬ acts_for_other current_user' email →
  (∃ before after,
     activities s !! activity_name = Some before
     ∧ activities s1 !! activity_name = Some after
     ∧ participants after = filter (λ p, p ≠ PyStr.lower email) (participants before)
     ∧ PyStr.lower email ∉ participants after)
  ∧ unregister_from_activity activity_name email current_user' s1
    = (Raise NotRegistered, s1).
Proof.
  intros Hdistinct Hun Hallowed.
  pose proof (unregister_return_found _ _ _ _ _ _ Hun) as (before & Hfound & _ & Hin).
  apply unregister_return_inv in Hun as ->.
  pose proof (Hdistinct _ _ Hfound) as Hnodup.
  assert (activities
            (mkStore (alter (with_participants (PyStr.remove (PyStr.lower email)))
                            activity_name (activities s))
                     (users s) (active_sessions s)) !! activity_name
          = Some (with_participants (PyStr.remove (PyStr.lower email)) before))
    as Hafter.
  { cbn [activities]. rewrite lookup_alter_eq, Hfound. reflexivity. }
  assert (PyStr.lower email
          ∉ participants (with_participants (PyStr.remove (PyStr.lower email)) before))
    as Hgone.
  { cbn [with_participants participants]. apply remove_NoDup_gone, Hnodup. }
  split.
  - exists before. eexists. split; [exact Hfound|]. split; [exact Hafter|].
    split; [|exact Hgone].
    cbn [with_participants participants]. apply remove_NoDup_filter, Hnodup.
  - exact (unregister_absent _ _ _ _ _ Hafter Hallowed Hgone).
Qed.

Lemma unregister_removes_email_witness :
  ∃ s1,
    unregister_from_activity "Chess Club" "Michael@mergington.edu" admin_user
      initial_store
    = (Return (Message "Unregistered michael@mergington.edu from Chess Club"), s1)
    ∧ unregister_from_activity "Chess Club" "Michael@mergington.edu" admin_user s1
      = (Raise NotRegistered, s1).
Proof.
  assert (∃ s1,
    unregister_from_activity "Chess Club" "Michael@mergington.edu" admin_user
      initial_store
    = (Return (Message "Unregistered michael@mergington.edu from Chess Club"), s1))
    as [s1 H].
  { eexists. vm_compute. reflexivity. }
  exists s1. split; [exact H|].
  exact (proj2 (unregister_removes_email initial_store s1 "Chess Club"
                  "Michael@mergington.edu" admin_user admin_user _
                  seeded_rosters_distinct H (admin_acts_for_anyone _))).
Defined.

(** X16.  Unregistering frees a place: on a store whose rosters are
    within capacity and without repetitions, after a successful unregister
    a signup of the same email by a caller allowed to act for it succeeds,
    and puts the email at the end of the roster. *)
Theorem unregister_frees_place (s s1 : Store) (activity_name email : string)
    (current_user current_user' : CurrentUser.t) (response : Response) :
  rosters_distinct s →
  within_capacity s →
  unregister_from_activity activity_name email current_user s = (Return response, s1) →
  ¬ acts_for_other current_user' email →
  ∃ s2 before after,
    signup_for_activity activity_name email current_user' s1
    = (Return (Message ("Signed up " +:+ PyStr.lower email
                        +:+ " for " +:+ activity_name)), s2)
    ∧ activities s !! activity_name = Some before
    ∧ activities s2 !! activity_name = Some after
    ∧ participants after
      = (filter (λ p, p ≠ PyStr.lower email) (participants before)
         ++ [PyStr.lower email])%list.
Proof.
  intros Hdistinct Hcap Hun Hallowed.
  pose proof (unregister_return_found _ _ _ _ _ _ Hun) as (before & Hfound & _ & Hin).
  apply unregister_return_inv in Hun as ->.
  pose proof (Hdistinct _ _ Hfound) as Hnodup.
  pose proof (Hcap _ _ Hfound) as Hroom.
  assert (activities
            (mkStore (alter (with_participants (PyStr.remove (PyStr.lower email)))
                            activity_name (activities s))
                     (users s) (active_sessions s)) !! activity_name
          = Some (with_participants (PyStr.remove (PyStr.lower email)) before))
    as Hafter.
  { cbn [activities]. rewrite lookup_alter_eq, Hfound. reflexivity. }
  assert (length (PyStr.remove (PyStr.lower email) (participants before))
          < length (participants before))%nat as Hshorter.
  { clear -Hin. induction (participants before) as [|y l IH];
      [apply elem_of_nil in Hin; destruct Hin|].
    simpl. destruct (bool_decide (y = PyStr.lower email)) eqn:Hy; [lia|].
    apply bool_decide_eq_false_1 in Hy.
    apply elem_of_cons in Hin as [Heq|Hin]; [congruence|].
    specialize (IH Hin). simpl. lia. }
  eexists. exists before. eexists. split; [|split; [exact Hfound|split]].
  - apply (signup_ok _ _ _ _ _ Hafter Hallowed).
    + cbn [with_participants participants]. apply remove_NoDup_gone, Hnodup.
    + cbn [with_participants participants max_participants]. lia.
  - cbn [activities] in *. rewrite lookup_alter_eq, Hafter. reflexivity.
  - cbn [with_participants participants].
    rewrite (remove_NoDup_filter _ _ Hnodup). reflexivity.
Qed.

Lemma unregister_frees_place_witness :
  ∃ s1 s2,
    unregister_from_activity "Math Club" "james@mergington.edu" admin_user full_store
    = (Return (Message "Unregistered james@mergington.edu from Math Club"), s1)
    ∧ signup_for_activity "Math Club" "s9@mergington.edu" admin_user full_store
      = (Raise Full, full_store)
    ∧ signup_for_activity "Math Club" "james@mergington.edu" admin_user s1
      = (Return (Message "Signed up james@mergington.edu for Math Club"), s2).
Proof.
  assert (∃ s1,
    unregister_from_activity "Math Club" "james@mergington.edu" admin_user full_store
    = (Return (Message "Unregistered james@mergington.edu from Math Club"), s1))
    as [s1 H].
  { eexists. vm_compute. reflexivity. }
  destruct (unregister_frees_place full_store s1 "Math Club" "james@mergington.edu"
              admin_user admin_user _
              (reachable_rosters_distinct _ (ex_intro _ fill_math_club eq_refl))
              (reachable_within_capacity _ (ex_intro _ fill_math_club eq_refl))
              H (admin_acts_for_anyone _))
    as (s2 & before & after & Hsignup & _).
  exists s1, s2. split; [exact H|]. split; [vm_compute; reflexivity|exact Hsignup].
Defined.

(** ** Whitespace around the token *)

Lemma lstrip_all_space r : all_space r = true → PyStr.lstrip r = EmptyString.
Proof.
  induction r as [|c r IH]; [reflexivity|]. cbn [all_space PyStr.lstrip].
  intros H. apply andb_true_iff in H as [Hc Hr]. rewrite Hc. exact (IH Hr).
Qed.

Lemma rstrip_all_space r : all_space r = true → PyStr.rstrip r = EmptyString.
Proof.
  induction r as [|c r IH]; [reflexivity|]. cbn [all_space PyStr.rstrip].
  intros H. apply andb_true_iff in H as [Hc Hr]. rewrite (IH Hr), Hc. reflexivity.
Qed.

Lemma lstrip_app_space l s :
  all_space l = true → PyStr.lstrip (l +:+ s) = PyStr.lstrip s.
Proof.
  induction l as [|c l IH]; [reflexivity|]. cbn [all_space].
  intros H. apply andb_true_iff in H as [Hc Hl].
  rewrite app_cons. cbn [PyStr.lstrip]. rewrite Hc. exact (IH Hl).
Qed.

Lemma rstrip_app_space s r :
  all_space r = true → PyStr.rstrip (s +:+ r) = PyStr.rstrip s.
Proof.
  intros Hr. induction s as [|c s IH]; [rewrite app_nil; apply rstrip_all_space, Hr|].
  rewrite app_cons. cbn [PyStr.rstrip]. rewrite IH. reflexivity.
Qed.

Lemma rstrip_trimmed t :
  (∀ u c, t = u +:+ String c EmptyString → PyStr.isspace c = false) →
  PyStr.rstrip t = t.
Proof.
  induction t as [|a t IH]; [reflexivity|]. intros Hlast.
  cbn [PyStr.rstrip]. rewrite IH.
  - destruct t as [|x v]; [|reflexivity].
    rewrite (Hlast EmptyString a eq_refl). reflexivity.
  - intros u c ->. apply (Hlast (String a u) c). reflexivity.
Qed.

Lemma strip_app_nil t : t +:+ EmptyString = t.
Proof. induction t as [|a t IH]; [reflexivity|]. rewrite app_cons, IH. reflexivity. Qed.

Lemma strip_padded l t r :
  all_space l = true → all_space r = true → trimmed t →
  PyStr.strip (l +:+ t +:+ r) = t.
Proof.
  intros Hl Hr [Hfirst Hlast]. unfold PyStr.strip.
  rewrite (lstrip_app_space l _ Hl).
  destruct t as [|c u].
  - rewrite app_nil, (lstrip_all_space r Hr). reflexivity.
  - rewrite app_cons. cbn [PyStr.lstrip]. rewrite (Hfirst c u eq_refl).
    rewrite <- app_cons, (rstrip_app_space _ r Hr). apply rstrip_trimmed, Hlast.
Qed.

Lemma get_current_user_bearer rest1 rest2 s :
  PyStr.strip rest1 = PyStr.strip rest2 →
  get_current_user (Some ("Bearer " +:+ rest1)) s
  = get_current_user (Some ("Bearer " +:+ rest2)) s.
Proof.
  intros H. unfold get_current_user.
  replace (PyStr.startswith "Bearer " ("Bearer " +:+ rest1)) with true
    by (symmetry; apply startswith_iff; eauto).
  replace (PyStr.startswith "Bearer " ("Bearer " +:+ rest2)) with true
    by (symmetry; apply startswith_iff; eauto).
  rewrite !removeprefix_app, H. reflexivity.
Qed.

(** X17.  Whitespace around the token does not matter, whitespace inside
    it does not go away: for a token with no whitespace at its ends,
    padded on either side with any whitespace, the stripped value is the
    token itself, and the padded header authenticates exactly as the
    plain one. *)
Theorem padded_token_accepted (l t r : string) :
  all_space l = true → all_space r = true → trimmed t →
  PyStr.strip (l +:+ t +:+ r) = t
  ∧ ∀ s, get_current_user (Some ("Bearer " +:+ l +:+ t +:+ r)) s
         = get_current_user (Some ("Bearer " +:+ t)) s.
Proof.
  intros Hl Hr Ht. split; [exact (strip_padded l t r Hl Hr Ht)|].
  intros s. apply get_current_user_bearer.
  rewrite (strip_padded l t r Hl Hr Ht).
  rewrite <- (strip_padded EmptyString t EmptyString eq_refl eq_refl Ht) at 1.
  rewrite app_nil, strip_app_nil. reflexivity.
Qed.

Lemma padded_token_accepted_witness :
  get_current_user (Some "Bearer 	 member-token  ") member_session
  = get_current_user (Some "Bearer member-token") member_session.
Proof.
  exact (proj2 (padded_token_accepted "	 " "member-token" "  " eq_refl eq_refl
                  (proj2 (strip_spec "member-token")))
               member_session).
Defined.

(** ** The shape of a password digest *)

Lemma round_length st kw : length (SHA256.round st kw) = length st.
Proof.
  unfold SHA256.round. do 9 (destruct st as [|? st]; [reflexivity|]). reflexivity.
Qed.

Lemma rounds_length kws st : length (fold_left SHA256.round kws st) = length st.
Proof.
  revert st. induction kws as [|kw kws IH]; intros st; [reflexivity|].
  cbn [fold_left]. rewrite IH. apply round_length.
Qed.

Lemma compress_length h block : length (SHA256.compress h block) = length h.
Proof.
  unfold SHA256.compress.
  rewrite List.length_map, List.length_combine, rounds_length. apply Nat.min_id.
Qed.

Lemma digest_length msg : length (SHA256.digest msg) = 8%nat.
Proof.
  unfold SHA256.digest.
  generalize (SHA256.blocks
                (length (SHA256.words (length (SHA256.pad msg)) (SHA256.pad msg)))
                (SHA256.words (length (SHA256.pad msg)) (SHA256.pad msg))).
  intros bs.
  assert (∀ h, length (fold_left SHA256.compress bs h) = length h) as H.
  { induction bs as [|b bs IH]; intros h; [reflexivity|].
    cbn [fold_left]. rewrite IH. apply compress_length. }
  rewrite H. reflexivity.
Qed.

Lemma string_length_app s1 s2 :
  String.length (s1 +:+ s2) = (String.length s1 + String.length s2)%nat.
Proof.
  induction s1 as [|c s1 IH]; [reflexivity|].
  rewrite app_cons. cbn [String.length]. rewrite IH. reflexivity.
Qed.

Lemma all_hex_app s1 s2 : all_hex (s1 +:+ s2) = all_hex s1 && all_hex s2.
Proof.
  induction s1 as [|c s1 IH]; [reflexivity|].
  rewrite app_cons. cbn [all_hex]. rewrite IH. apply andb_assoc.
Qed.

Lemma hex_digit_is_hex x : is_hex_char (SHA256.hex_digit (Z.land x 15)) = true.
Proof.
  change 15 with (Z.ones 4). rewrite Z.land_ones by lia.
  pose proof (Z.mod_pos_bound x (2 ^ 4) eq_refl) as Hm.
  generalize dependent (x mod 2 ^ 4). intros m Hm.
  assert (m = 0 ∨ m = 1 ∨ m = 2 ∨ m = 3 ∨ m = 4 ∨ m = 5 ∨ m = 6 ∨ m = 7
          ∨ m = 8 ∨ m = 9 ∨ m = 10 ∨ m = 11 ∨ m = 12 ∨ m = 13 ∨ m = 14 ∨ m = 15)
    as H by lia.
  repeat (destruct H as [-> | H]; [reflexivity|]). subst m. reflexivity.
Qed.

Lemma hex_word_shape n x :
  String.length (SHA256.hex_word n x) = n ∧ all_hex (SHA256.hex_word n x) = true.
Proof.
  induction n as [|n [IHl IHh]]; [split; reflexivity|].
  cbn [SHA256.hex_word String.length all_hex].
  rewrite IHl, IHh, hex_digit_is_hex. split; reflexivity.
Qed.

(** X18.  The digest stored for a password is always a string of 64
    lowercase hexadecimal digits, whatever the password (the empty one
    included). *)
Theorem password_digest_shape (password : string) :
  String.length (hash_password password) = 64%nat
  ∧ all_hex (hash_password password) = true.
Proof.
  with_strategy transparent [hash_password] (unfold hash_password).
  unfold SHA256.hexdigest.
  pose proof (digest_length (PyStr.encode_utf8 password)) as Hlen.
  generalize dependent (SHA256.digest (PyStr.encode_utf8 password)). intros ws Hlen.
  assert (String.length
            (fold_right (λ w acc, SHA256.hex_word 8 w +:+ acc) EmptyString ws)
          = (8 * length ws)%nat
          ∧ all_hex (fold_right (λ w acc, SHA256.hex_word 8 w +:+ acc) EmptyString ws)
            = true) as [Hl Hh].
  { clear Hlen. induction ws as [|w ws [IHl IHh]]; [split; reflexivity|].
    cbn [fold_right length].
    rewrite string_length_app, all_hex_app, IHl, IHh.
    destruct (hex_word_shape 8 w) as [-> ->]. split; [lia|reflexivity]. }
  rewrite Hl, Hh, Hlen. split; reflexivity.
Qed.

(** ** Members act for themselves only *)

(** X19.  Whenever a signup or an unregister request made with a member's
    session succeeds, the email it added or removed is, up to case, the
    member's own: a member can never change another person's
    registration. *)
Theorem member_acts_only_for_self (authorization : option string) (s s1 : Store)
    (current_user : CurrentUser.t) (activity_name email : string)
    (response : Response) :
  get_current_user authorization s = (Return current_user, s) →
  CurrentUser.role current_user = "member" →
  serve (PostSignup authorization activity_name email) s = (Return response, s1)
  ∨ serve (DeleteUnregister authorization activity_name email) s
    = (Return response, s1) →
  PyStr.lower email = CurrentUser.email current_user.
Proof.
  intros Hauth Hrole Hserve.
  assert (require_roles all_roles authorization s = (Return current_user, s)) as Hgate.
  { unfold require_roles. rewrite (run_bind_return _ _ _ _ _ Hauth).
    rewrite Hrole. reflexivity. }
  cbn [serve] in Hserve. rewrite !(run_bind_return _ _ _ _ _ Hgate) in Hserve.
  assert (¬ acts_for_other current_user email) as Hallowed.
  { destruct Hserve as [H|H].
    - apply signup_return_inv in H as (a & _ & Hallowed & _). exact Hallowed.
    - apply unregister_return_found in H as (a & _ & Hallowed & _). exact Hallowed. }
  destruct (decide (PyStr.lower email = CurrentUser.email current_user)) as [Heq|Hne];
    [exact Heq|].
  destruct Hallowed. split; assumption.
Qed.

Lemma member_acts_only_for_self_witness :
  PyStr.lower "Member@Mergington.edu" = CurrentUser.email member_user.
Proof.
  assert (∃ s1,
    serve (PostSignup (Some "Bearer member-token") "Gym Class" "Member@Mergington.edu")
      member_session
    = (Return (Message "Signed up member@mergington.edu for Gym Class"), s1))
    as [s1 H].
  { eexists. vm_compute. reflexivity. }
  apply (member_acts_only_for_self (Some "Bearer member-token") member_session s1
           member_user "Gym Class" "Member@Mergington.edu"
           (Message "Signed up member@mergington.edu for Gym Class")).
  - vm_compute. reflexivity.
  - reflexivity.
  - left. exact H.
Defined.

(** ** A login leaves the other sessions alone *)

(** X20.  A successful login adds one session and disturbs no other: a
    header whose token is not the one just drawn is answered by
    [get_current_user] after the login exactly as before it, so a user may
    hold any number of sessions at once. *)
Theorem login_keeps_other_sessions (s s1 : Store) (payload : LoginRequest.t)
    (token header : string) (response : Response) :
  login_user payload token s = (Return response, s1) →
  PyStr.strip (PyStr.removeprefix "Bearer " header) ≠ token →
  fst (get_current_user (Some header) s1) = fst (get_current_user (Some header) s).
Proof.
  intros Hlogin Hother.
  destruct (users s !! PyStr.lower (LoginRequest.email payload)) as [record|] eqn:Hu;
    [|rewrite login_unknown in Hlogin by exact Hu; discriminate].
  destruct (decide (UserRecord.password_hash record
                    = hash_password (LoginRequest.password payload))) as [Hp|Hp];
    [|rewrite (login_wrong_password _ _ _ _ Hu Hp) in Hlogin; discriminate].
  rewrite (login_ok _ _ _ _ Hu Hp) in Hlogin. injection Hlogin as _ <-.
  unfold get_current_user. destruct (_ || _); [reflexivity|].
  rewrite !run_bind_read. cbn [active_sessions users].
  rewrite lookup_insert_ne by (intros Heq; apply Hother; symmetry; exact Heq).
  destruct (active_sessions s !! _) as [[|c owner]|]; try reflexivity.
  rewrite !run_bind_read. cbn [users].
  destruct (users s !! String c owner); reflexivity.
Qed.

Lemma login_keeps_other_sessions_witness :
  ∃ s1,
    login_user (LoginRequest.mk "member@mergington.edu" "member123") "second-token"
      member_session
    = (Return (LoggedIn "Login successful" "second-token" member_user), s1)
    ∧ fst (get_current_user (Some "Bearer member-token") s1) = Return member_user.
Proof.
  assert (∃ s1,
    login_user (LoginRequest.mk "member@mergington.edu" "member123") "second-token"
      member_session
    = (Return (LoggedIn "Login successful" "second-token" member_user), s1))
    as [s1 H].
  { eexists. vm_compute. reflexivity. }
  exists s1. split; [exact H|].
  refine (eq_trans (login_keeps_other_sessions member_session s1 _ _
                      "Bearer member-token" _ H _) _).
  - discriminate.
  - vm_compute. reflexivity.
Defined.
